(** * The zone server: session coordinator and playback engine

    A shallow embedding of the two variants of the zone host that the
    repository carries,

    - [SocketHost]: the host whose clients join over the websocket itself
      with a [join] message that may carry a resume token;
    - [TicketHost]: the host whose clients first obtain a ticket over HTTP
      and whose queue, skip and echo operations are HTTP routes;

    together with the functions both share word for word ([killUser],
    [skip], the socket close handler, the token tables, ...).

    The host is one closure over a handful of maps.  It is embedded as a
    record [State] holding these maps, every handler being a function on
    [State].  Handlers that can end in a JavaScript exception return a
    [Res]. What the server writes to sockets and HTTP responses is
    appended to the [log] field. *)

From Stdlib Require Import ZArith QArith Qround String.
From Stdlib Require Import Floats.SpecFloat.
From stdpp Require Import base gmap sets list strings fin_maps pretty.

#[local] Open Scope string_scope.
#[local] Open Scope Z_scope.
#[local] Open Scope list_scope.

(** ** Data model *)

(** User ids are the decimal renderings of the counter [lastUserId]; the
    embedding keeps the counter value. Sockets (and the [Messaging] object
    wrapped around each) are named by a number. Network addresses, tokens,
    names and texts are strings; a character stands for one UTF-16 code
    unit, so that [String.length] is [.length] and [substring 0 n] is
    [.slice(0, n)]. Coordinates are integer cells. *)

Record UserState := {
  userId : nat;
  name : option string;
  avatar : option string;
  position : option (list Z);
  emotes : list string;
  tags : list string
}.

(** The [tags] array of a user is created with the user and afterwards only
    mutated in place ([push], [splice]).  An echo is built with
    [{ ...user, position, text }], a shallow copy: its [tags] is the very
    array of its author.  Echoes restored from the snapshot own their
    array. *)
Inductive TagsRef :=
  | TagsOf (author : nat)
  | TagsOwn (l : list string).

Record UserEcho := {
  echo_userId : nat;
  echo_name : option string;
  echo_avatar : option string;
  echo_emotes : list string;
  echo_tags : TagsRef;
  echo_position : list Z;
  echo_text : string
}.

Inductive MediaStatus := available | pending | failed.

(** [source] is the identity of a media ([media.source] in [SocketHost],
    [media.src] in [TicketHost]); [getStatus], when present, names the
    asynchronous availability probe of the media. *)
Record Media := {
  title : string;
  duration : Z;
  source : string;
  getStatus : option nat
}.

Record QueueInfo := {
  info_userId : option nat;
  info_ip : option string;
  info_banger : bool
}.

Record QueueItem := {
  itemId : nat;
  media : Media;
  info : QueueInfo
}.

Record Ban := {
  bannee : string;
  banner : string;
  reason : option string;
  date : string
}.

(** ** Numbers

    A JavaScript [number] is a binary64 floating-point number.  The
    embedding takes the floating-point numbers of the Standard Library's
    [SpecFloat] at the format's precision of 53 bits, with
    round-to-nearest-even arithmetic. *)
Definition number : Type := spec_float.

Definition float_prec : Z := 53.
Definition float_emax : Z := 1024.

(** The number an integer denotes, exact up to 2^53. *)
Definition number_of_Z (z : Z) : number :=
  binary_normalize float_prec float_emax z 0 false.

(** [a * b] *)
Definition times (a b : number) : number :=
  SFmul float_prec float_emax a b.

(** The number that the decimal literal for the fraction [n / d] denotes,
    [n] and [d] being below 2^53: the nearest number to the fraction,
    which is what the correctly rounded quotient of the two integers is. *)
Definition decimal (n : Z) (d : positive) : number :=
  SFdiv float_prec float_emax (number_of_Z n) (number_of_Z (Zpos d)).

(** What [Math.ceil] can return: a whole number, an infinity or NaN.  The
    sign of a zero result is dropped: neither [>=] nor the rendering in a
    template string tells [-0] from [0]. *)
Inductive Whole :=
  | Int (z : Z)
  | PlusInfinity
  | MinusInfinity
  | NotANumber.

(** [Math.ceil(x)]: a finite [x] is [±m × 2^e]. *)
Definition Math_ceil (x : number) : Whole :=
  match x with
  | S754_zero _ => Int 0
  | S754_infinity s => if s then MinusInfinity else PlusInfinity
  | S754_nan => NotANumber
  | S754_finite s m e =>
      let v := if s then Zneg m else Zpos m in
      Int (if 0 <=? e then v * 2 ^ e else - ((- v) / 2 ^ (- e)))
  end.

(** [current >= target] for a count [current]: every comparison with NaN
    is false. *)
Definition at_least (current : nat) (target : Whole) : bool :=
  match target with
  | Int z => z <=? Z.of_nat current
  | MinusInfinity => true
  | PlusInfinity | NotANumber => false
  end.

Record HostOptions := {
  userTimeout : Z;
  perUserQueueLimit : nat;
  voteSkipThreshold : number;
  joinPassword : option string;
  playbackStartDelay : Z
}.

Definition DEFAULT_OPTIONS : HostOptions :=
  {| userTimeout := 5 * 1000;
     perUserQueueLimit := 3;
     voteSkipThreshold := decimal 6 10;
     joinPassword := None;
     playbackStartDelay := 1 * 1000 |}.

Record JoinMessage := {
  join_name : string;
  join_token : option string;
  join_password : option string
}.

Record Ticket := {
  ticket_name : string;
  ticket_avatar : string
}.

(** ** What the server says

    The texts of status messages, rejections and errors.  Template strings
    keep their arguments instead of being rendered. *)
Inductive Text :=
  | YouAreBanned
  | PasswordRequired
  | UserSkipped (who : option string) (what : string)
  | CantSkipDuringEventMode
  | VotedToSkip (what : string)
  | VotesToSkip (current : nat) (target : Whole)
  | AdminSkipped (what : string)
  | VideoFailedToLoad
  | FailedToLoad (what : string)
  | EventModeOnlyDjsMayQueue
  | OnlyDjsMayQueueDuringEventMode
  | AlreadyQueued (what : string)
  | AlreadyHaveInQueue (count : nat)
  | CantRemoveAdminEcho
  | NotPlaying (item : nat)
  | InvalidUser.

Inductive Msg :=
  | MReject (text : Text)
  | MAssign (user : nat) (token : string)
  | MUsers (roster : list UserState)
  | MUser (user : UserState)
  | MLeave (user : nat)
  | MStatus (text : Text)
  | MQueue (items : list QueueItem)
  | MPlay (current : option (QueueItem * Z))
  | MUnqueue (item : nat)
  | MEchoesAdded (added : list UserEcho)
  | MEchoesRemoved (removed : list (list Z)).

Inductive Exn :=
  | TypeError
  | Error (message : Text).

Inductive Body :=
  | Empty_body
  | Text_body (text : Text)
  | Error_body (e : Exn)
  | Ticket_body (ticket : string).

Inductive Out :=
  | Send (socket : nat) (m : Msg)
  | Close (socket : nat) (code : nat)
  | Respond (code : nat) (body : Body).

(** What is attached to a socket: the one-shot [join] listener installed by
    [waitJoin], or the close handler and message handlers of a bound user. *)
Inductive Listener :=
  | AwaitingJoin (userIp : string)
  | Joined (user : nat).

(** ** The playback engine *)

Module Playback.

Inductive event :=
  | EvQueue (item : QueueItem)
  | EvPlay (item : QueueItem)
  | EvStop
  | EvUnqueue (item : QueueItem).

(** Modelled from the spec: the class [Playback] of [./playback], which
    the host imports and which is not among the sources.  Idle is
    [currentItem = None]; playing is the current item together with the
    timestamp its clock started at. *)
Record t := mk {
  currentItem : option QueueItem;
  startTimestamp : Z;
  queue : list QueueItem;
  nextId : nat;
  startDelay : Z
}.

Definition create (delay : Z) : t :=
  mk None 0 [] 0 delay.

(** Modelled from the spec: the elapsed time of the current item,
    [now - start], of the missing [Playback]. *)
Definition currentTime (now : Z) (pb : t) : Z :=
  now - startTimestamp pb.

(** Modelled from the spec: promotion of an item to playing, of the
    missing [Playback]: the item becomes current and its clock starts
    once the startup delay has passed. *)
Definition promote (item : QueueItem) (rest : list QueueItem) (now : Z) (pb : t) : t :=
  mk (Some item) (now + startDelay pb) rest (nextId pb) (startDelay pb).

(** Modelled from the spec: [queueMedia] of the missing [Playback]:
    appends a new item with a freshly allocated id; if idle, promotes the
    new item to playing; emits [queue] always and [play] when promotion
    occurs. *)
Definition queueMedia (m : Media) (i : QueueInfo) (now : Z) (pb : t)
  : QueueItem * t * list event :=
  let item := {| itemId := nextId pb; media := m; info := i |} in
  let pb1 := mk (currentItem pb) (startTimestamp pb) (queue pb ++ [item])
                (S (nextId pb)) (startDelay pb) in
  match currentItem pb with
  | None => (item, promote item (queue pb) now pb1, [EvQueue item; EvPlay item])
  | Some _ => (item, pb1, [EvQueue item])
  end.

(** Modelled from the spec: [skip] of the missing [Playback]: discards
    the current item and promotes the head of the queue, or, the queue
    being empty, goes idle and emits [stop]. *)
Definition skip (now : Z) (pb : t) : t * list event :=
  match queue pb with
  | next :: rest => (promote next rest now pb, [EvPlay next])
  | [] => (mk None (startTimestamp pb) [] (nextId pb) (startDelay pb), [EvStop])
  end.

Fixpoint remove_item (id : nat) (q : list QueueItem) : list QueueItem :=
  match q with
  | [] => []
  | x :: q' => if Nat.eqb (itemId x) id then q' else x :: remove_item id q'
  end.

Definition is_pending (id : nat) (q : list QueueItem) : bool :=
  existsb (fun x => Nat.eqb (itemId x) id) q.

(** Modelled from the spec: [unqueue] of the missing [Playback]: removes
    one pending item by identity (an item is identified by its id, ids
    being allocated once); nothing happens when the item is not pending;
    the current item is never touched. *)
Definition unqueue (item : QueueItem) (pb : t) : t * list event :=
  if is_pending (itemId item) (queue pb)
  then (mk (currentItem pb) (startTimestamp pb)
           (remove_item (itemId item) (queue pb)) (nextId pb) (startDelay pb),
        [EvUnqueue item])
  else (pb, []).

End Playback.

(** ** The state of a host *)

#[local] Set Primitive Projections.
Record State := MkState {
  opts : HostOptions;
  (* the objects of type UserState allocated so far, by identity *)
  heap : gmap nat UserState;
  (* zone.users and zone.echoes *)
  users : gset nat;
  echoes : gmap (list Z) UserEcho;
  (* the variables of the closure *)
  lastUserId : nat;
  tokenToUser : gmap string nat;
  userToToken : gmap nat string;
  userToIp : gmap nat string;
  connections : gmap nat nat;
  userToConnections : gmap nat (gset nat);
  eventMode : bool;
  skips : gset nat;
  playback : Playback.t;
  tickets : gmap string Ticket;
  (* the module-level ban table *)
  bans : gmap string Ban;
  (* the runtime: listeners on sockets, pending timeouts, clock, output *)
  listeners : gmap nat Listener;
  timers : list nat;
  now : Z;
  log : list Out
}.
#[local] Unset Primitive Projections.

Definition set_heap x '(MkState o h u e l tu ut ui c uc em s p tk b ls tm n lg) :=
  MkState o x u e l tu ut ui c uc em s p tk b ls tm n lg.
Definition set_users x '(MkState o h u e l tu ut ui c uc em s p tk b ls tm n lg) :=
  MkState o h x e l tu ut ui c uc em s p tk b ls tm n lg.
Definition set_echoes x '(MkState o h u e l tu ut ui c uc em s p tk b ls tm n lg) :=
  MkState o h u x l tu ut ui c uc em s p tk b ls tm n lg.
Definition set_lastUserId x '(MkState o h u e l tu ut ui c uc em s p tk b ls tm n lg) :=
  MkState o h u e x tu ut ui c uc em s p tk b ls tm n lg.
Definition set_tokenToUser x '(MkState o h u e l tu ut ui c uc em s p tk b ls tm n lg) :=
  MkState o h u e l x ut ui c uc em s p tk b ls tm n lg.
Definition set_userToToken x '(MkState o h u e l tu ut ui c uc em s p tk b ls tm n lg) :=
  MkState o h u e l tu x ui c uc em s p tk b ls tm n lg.
Definition set_userToIp x '(MkState o h u e l tu ut ui c uc em s p tk b ls tm n lg) :=
  MkState o h u e l tu ut x c uc em s p tk b ls tm n lg.
Definition set_connections x '(MkState o h u e l tu ut ui c uc em s p tk b ls tm n lg) :=
  MkState o h u e l tu ut ui x uc em s p tk b ls tm n lg.
Definition set_userToConnections x '(MkState o h u e l tu ut ui c uc em s p tk b ls tm n lg) :=
  MkState o h u e l tu ut ui c x em s p tk b ls tm n lg.
Definition set_eventMode x '(MkState o h u e l tu ut ui c uc em s p tk b ls tm n lg) :=
  MkState o h u e l tu ut ui c uc x s p tk b ls tm n lg.
Definition set_skips x '(MkState o h u e l tu ut ui c uc em s p tk b ls tm n lg) :=
  MkState o h u e l tu ut ui c uc em x p tk b ls tm n lg.
Definition set_playback x '(MkState o h u e l tu ut ui c uc em s p tk b ls tm n lg) :=
  MkState o h u e l tu ut ui c uc em s x tk b ls tm n lg.
Definition set_tickets x '(MkState o h u e l tu ut ui c uc em s p tk b ls tm n lg) :=
  MkState o h u e l tu ut ui c uc em s p x b ls tm n lg.
Definition set_bans x '(MkState o h u e l tu ut ui c uc em s p tk b ls tm n lg) :=
  MkState o h u e l tu ut ui c uc em s p tk x ls tm n lg.
Definition set_listeners x '(MkState o h u e l tu ut ui c uc em s p tk b ls tm n lg) :=
  MkState o h u e l tu ut ui c uc em s p tk b x tm n lg.
Definition set_timers x '(MkState o h u e l tu ut ui c uc em s p tk b ls tm n lg) :=
  MkState o h u e l tu ut ui c uc em s p tk b ls x n lg.
Definition set_log x '(MkState o h u e l tu ut ui c uc em s p tk b ls tm n lg) :=
  MkState o h u e l tu ut ui c uc em s p tk b ls tm n x.

(** The state [host] starts from, before [load]. *)
Definition initial (o : HostOptions) : State :=
  MkState o ∅ ∅ ∅ 0 ∅ ∅ ∅ ∅ ∅ false ∅ (Playback.create (playbackStartDelay o))
          ∅ ∅ ∅ [] 0 [].

(** A handler ends normally or in an exception; either way it leaves a
    state behind. *)
Inductive Res :=
  | Done (st : State)
  | Raise (e : Exn) (st : State).

Definition final (r : Res) : State :=
  match r with
  | Done st => st
  | Raise _ st => st
  end.

Definition andThen (r : Res) (k : State → Res) : Res :=
  match r with
  | Done st => k st
  | Raise e st => Raise e st
  end.

Notation "r >>> k" := (andThen r k) (at level 61, left associativity).

(** [try { body } catch (error) { handler(error) }] *)
Definition try_catch (r : Res) (handler : Exn → State → Res) : Res :=
  match r with
  | Done st => Done st
  | Raise e st => handler e st
  end.

Definition emit (o : list Out) (st : State) : State :=
  set_log (log st ++ o) st.

(** JavaScript truthiness of a string. *)
Definition truthy (s : string) : bool :=
  negb (String.eqb s "").

(** [user.tags.includes(tag)] for the user object [user]. *)
Definition tags_of (user : nat) (st : State) : list string :=
  match heap st !! user with
  | Some u => tags u
  | None => []
  end.

Definition includes (tag : string) (l : list string) : bool :=
  bool_decide (tag ∈ l).

Definition has_tag (tag : string) (user : nat) (st : State) : bool :=
  includes tag (tags_of user st).

Definition name_of (user : nat) (st : State) : option string :=
  match heap st !! user with
  | Some u => name u
  | None => None
  end.

(** ** Functions the two hosts share *)

(** [connections.forEach((connection) => connection.send(type, message))]:
    one line of output per connection, in the order [map_to_list] lists
    them (the order of insertion is not kept). *)
Definition broadcast (m : Msg) (st : State) : list Out :=
  (λ entry : nat * nat, Send entry.2 m) <$> map_to_list (connections st).

Definition sendAll (m : Msg) (st : State) : State :=
  emit (broadcast m st) st.

(** [connections.get(userId)!.send(type, message)]: the non-null assertion
    is erased at run time, and sending through a missing entry is a
    [TypeError]. *)
Definition sendOnly (m : Msg) (user : nat) (st : State) : Res :=
  match connections st !! user with
  | Some socket => Done (emit [Send socket m] st)
  | None => Raise TypeError st
  end.

Definition status (text : Text) (user : option nat) (st : State) : Res :=
  match user with
  | Some u => sendOnly (MStatus text) u st
  | None => Done (sendAll (MStatus text) st)
  end.

(** [status(text)] with no addressee cannot fail. *)
Definition status_all (text : Text) (st : State) : State :=
  sendAll (MStatus text) st.

Definition addUserToken (user : nat) (token : string) (st : State) : State :=
  set_userToToken (<[user := token]> (userToToken st))
    (set_tokenToUser (<[token := user]> (tokenToUser st)) st).

Definition revokeUserToken (user : nat) (st : State) : State :=
  let st1 :=
    match userToToken st !! user with
    | Some token =>
        if truthy token
        then set_tokenToUser (delete token (tokenToUser st)) st
        else st
    | None => st
    end in
  set_userToToken (delete user (userToToken st1)) st1.

Definition addConnectionToUser (user : nat) (messaging : nat) (st : State) : State :=
  let conns := default ∅ (userToConnections st !! user) in
  set_userToConnections (<[user := conns ∪ {[messaging]}]> (userToConnections st)) st.

Definition removeConnectionFromUser (user : nat) (messaging : nat) (st : State) : State :=
  match userToConnections st !! user with
  | Some conns =>
      set_userToConnections (<[user := conns ∖ {[messaging]}]> (userToConnections st)) st
  | None => st
  end.

Definition isUserConnectionless (user : nat) (st : State) : bool :=
  match userToConnections st !! user with
  | Some conns => bool_decide (size conns = 0%nat)
  | None => true
  end.

Definition killUser (user : nat) (st : State) : State :=
  let st1 := if bool_decide (user ∈ users st) then sendAll (MLeave user) st else st in
  let st2 := set_users (users st1 ∖ {[user]}) st1 in
  let st3 := set_connections (delete user (connections st2)) st2 in
  let st4 := set_userToConnections (delete user (userToConnections st3)) st3 in
  revokeUserToken user st4.

(** The listeners the host registers on the engine:
    [queue], [play] (twice: the broadcast, then [skips.clear()]), [stop]
    and [unqueue]. *)
Definition on_playback (ev : Playback.event) (st : State) : State :=
  match ev with
  | Playback.EvQueue item => sendAll (MQueue [item]) st
  | Playback.EvPlay item =>
      set_skips ∅
        (sendAll (MPlay (Some (item, Playback.currentTime (now st) (playback st)))) st)
  | Playback.EvStop => sendAll (MPlay None) st
  | Playback.EvUnqueue item => sendAll (MUnqueue (itemId item)) st
  end.

Definition dispatch (evs : list Playback.event) (st : State) : State :=
  foldl (λ s ev, on_playback ev s) st evs.

(** [playback.skip()], [playback.unqueue(item)] and
    [playback.queueMedia(media, info)] as the host sees them: the engine
    moves and its events reach the listeners above. *)
Definition playback_skip (st : State) : State :=
  let '(pb, evs) := Playback.skip (now st) (playback st) in
  dispatch evs (set_playback pb st).

Definition playback_unqueue (item : QueueItem) (st : State) : State :=
  let '(pb, evs) := Playback.unqueue item (playback st) in
  dispatch evs (set_playback pb st).

Definition playback_queueMedia (m : Media) (i : QueueInfo) (st : State) : State :=
  let '(_, pb, evs) := Playback.queueMedia m i (now st) (playback st) in
  dispatch evs (set_playback pb st).

(** [function skip(message?: string)]: every text of [Text] is a
    non-empty string. *)
Definition skip (message : option Text) (st : State) : State :=
  let st1 := match message with
             | Some text => status_all text st
             | None => st
             end in
  playback_skip st1.

(** [playback.on('failed', (item) => skip("video failed to load"))] *)
Definition on_failed (item : QueueItem) (st : State) : State :=
  skip (Some VideoFailedToLoad) st.

(** [Math.ceil(zone.users.size * opts.voteSkipThreshold)] *)
Definition skip_target (st : State) : Whole :=
  Math_ceil (times (number_of_Z (Z.of_nat (size (users st))))
                   (voteSkipThreshold (opts st))).

(** The body of [voteSkip] below its guard, the same in both hosts. *)
Definition count_vote (what : string) (user : nat) (st : State) : State :=
  let st1 := set_skips ({[user]} ∪ skips st) st in
  let current := size (skips st1) in
  let target := skip_target st1 in
  if at_least current target
  then skip (Some (VotedToSkip what)) st1
  else status_all (VotesToSkip current target) st1.

Definition sendCurrent (user : nat) (st : State) : Res :=
  match Playback.currentItem (playback st) with
  | Some item =>
      sendOnly (MPlay (Some (item, Playback.currentTime (now st) (playback st)))) user st
  | None => sendOnly (MPlay None) user st
  end.

Definition roster (st : State) : list UserState :=
  omap (λ u, heap st !! u) (elements (users st)).

Definition sendCoreState (user : nat) (st : State) : Res :=
  sendOnly (MUsers (roster st)) user st
    >>> sendOnly (MQueue (Playback.queue (playback st))) user
    >>> sendCurrent user.

Definition sendOtherState (user : nat) (st : State) : Res :=
  sendOnly (MEchoesAdded (map_to_list (echoes st)).*2) user st.

(** The handler [websocket.on('close', ...)] installed for a bound user. *)
Definition close_handler (user : nat) (messaging : nat) (code : nat) (st : State) : State :=
  let st1 := removeConnectionFromUser user messaging st in
  let cleanExit := Nat.eqb code 1000 || Nat.eqb code 1001 in
  if cleanExit
  then killUser user st1
  else set_timers (timers st1 ++ [user]) st1.

(** The callback handed to [setTimeout]. *)
Definition timeout_callback (user : nat) (st : State) : State :=
  if isUserConnectionless user st then killUser user st else st.

(** A socket closes: whatever is attached to it is dropped, and the close
    handler runs if the socket was bound. *)
Definition on_close (socket : nat) (code : nat) (st : State) : State :=
  match listeners st !! socket with
  | Some (Joined user) =>
      close_handler user socket code (set_listeners (delete socket (listeners st)) st)
  | Some (AwaitingJoin _) => set_listeners (delete socket (listeners st)) st
  | None => st
  end.

(** The [k]-th pending timeout fires. *)
Definition on_timeout (k : nat) (st : State) : State :=
  match timers st !! k with
  | Some user => timeout_callback user (set_timers (delete k (timers st)) st)
  | None => st
  end.

(** Modelled from the spec: [getUser] of the class [ZoneState] of
    [../common/zone], which is not among the sources: get-or-create, a
    user absent from the registry being created with default attributes
    and stored. *)
Definition getUser (id : nat) (st : State) : State :=
  if bool_decide (id ∈ users st) then st
  else set_users ({[id]} ∪ users st)
         (set_heap (<[id := {| userId := id; name := None; avatar := None;
                               position := None; emotes := []; tags := [] |}]> (heap st)) st).

(** [user.name = n] *)
Definition rename (n : string) (u : UserState) : UserState :=
  {| userId := userId u; name := Some n; avatar := avatar u;
     position := position u; emotes := emotes u; tags := tags u |}.

Definition set_name (user : nat) (n : string) (st : State) : State :=
  set_heap (alter (rename n) user (heap st)) st.

Definition set_avatar (user : nat) (a : string) (st : State) : State :=
  set_heap (alter (λ u, {| userId := userId u; name := name u; avatar := Some a;
                           position := position u; emotes := emotes u; tags := tags u |})
                  user (heap st)) st.

(** The tags an echo shows: those of its author's array, or its own. *)
Definition tags_of_echo (e : UserEcho) (st : State) : list string :=
  match echo_tags e with
  | TagsOf author => tags_of author st
  | TagsOwn l => l
  end.

(** [{ ...user, position, text: text.slice(0, 512) }] *)
Definition make_echo (user : nat) (pos : list Z) (text : string) (st : State) : UserEcho :=
  {| echo_userId := user;
     echo_name := name_of user st;
     echo_avatar := match heap st !! user with Some u => avatar u | None => None end;
     echo_emotes := match heap st !! user with Some u => emotes u | None => [] end;
     echo_tags := TagsOf user;
     echo_position := pos;
     echo_text := substring 0 512 text |}.

(** [!!zone.echoes.get(position)?.tags.includes('admin')] *)
Definition echo_is_admin (pos : list Z) (st : State) : bool :=
  match echoes st !! pos with
  | Some e => includes "admin" (tags_of_echo e st)
  | None => false
  end.

(** The two branches of the echo handlers that pass the admin check. *)
Definition put_echo (user : nat) (pos : list Z) (text : string) (st : State) : State :=
  if Nat.ltb 0 (String.length text)
  then let echo := make_echo user pos text st in
       sendAll (MEchoesAdded [echo]) (set_echoes (<[pos := echo]> (echoes st)) st)
  else sendAll (MEchoesRemoved [pos]) (set_echoes (delete pos (echoes st)) st).

(** [mediaEquals] of [../common/zone] is not among the sources.
    Modelled from the spec: a media's identity is its content source
    descriptor, which is what equality compares. *)
Definition mediaEquals (a b : Media) : bool :=
  String.eqb (source a) (source b).

(** [item.info.ip === userIp] *)
Definition same_ip (a b : option string) : bool :=
  bool_decide (a = b).

Definition queued_by_ip (userIp : option string) (st : State) : nat :=
  length (filter (λ item, same_ip (info_ip (info item)) userIp = true)
                 (Playback.queue (playback st))).

(** [requireUserToken]: the bearer token of the request is looked up in
    [tokenToUser]; the route runs for the user found. *)
Definition bearer (authorization : option string) : string :=
  match authorization with
  | Some auth =>
      if String.prefix "Bearer " auth
      then substring 7 (String.length auth - 7) auth
      else ""
  | None => ""
  end.

Definition requireUserToken (authorization : option string)
    (next : nat → State → Res) (st : State) : Res :=
  match tokenToUser st !! bearer authorization with
  | Some user => next user st
  | None => Done (emit [Respond 401 (Text_body InvalidUser)] st)
  end.

(** A listener registered with [once] is removed when it is called. *)
Definition heard (websocket : nat) (st : State) : State :=
  set_listeners (delete websocket (listeners st)) st.

(** [sendAll('user', user)] *)
Definition sendAll_user (user : nat) (st : State) : State :=
  match heap st !! user with
  | Some u => sendAll (MUser u) st
  | None => st
  end.

(** ** The host that is joined over the socket *)

Module SocketHost.

(** [resume]: the token of the message when it is truthy and known. *)
Definition resume (message : JoinMessage) (st : State) : option string :=
  match join_token message with
  | Some token =>
      if truthy token && bool_decide (is_Some (tokenToUser st !! token))
      then Some token else None
  | None => None
  end.

Definition authorised (message : JoinMessage) (st : State) : bool :=
  bool_decide (is_Some (resume message st))
  || match joinPassword (opts st) with
     | Some p => negb (truthy p)
     | None => true
     end
  || bool_decide (join_password message = joinPassword (opts st)).

(** The part of the [join] callback that follows the choice of [user]
    and [token]: first the tables are updated (the network id handed to
    [bindMessagingToUser] is written to two module-level maps that nothing
    reads; they are left out), *)
Definition attach (websocket : nat) (userIp : string) (message : JoinMessage)
    (user : nat) (token : string) (st : State) : State :=
  let st1 := set_name user (join_name message) st in
  let st2 := addUserToken user token st1 in
  let st3 := addConnectionToUser user websocket st2 in
  let st4 := set_userToIp (<[user := userIp]> (userToIp st3)) st3 in
  let st5 := set_listeners (<[websocket := Joined user]> (listeners st4)) st4 in
  set_connections (<[user := websocket]> (connections st5)) st5.

(** then the state is sent. *)
Definition bind_user (websocket : nat) (userIp : string) (message : JoinMessage)
    (resumed : bool) (user : nat) (token : string) (st : State) : Res :=
  sendCoreState user (attach websocket userIp message user token st)
    >>> sendOnly (MAssign user token) user
    >>> (λ s, Done (if resumed then s else sendAll_user user s))
    >>> sendOtherState user.

(** The callback of [messaging.messages.once('join', ...)]; [fresh] is
    what [nanoid()] returns when it is called. *)
Definition join_callback (websocket : nat) (userIp : string) (message : JoinMessage)
    (fresh : string) (st : State) : Res :=
  if negb (authorised message st)
  then Done (emit [Send websocket (MReject PasswordRequired); Close websocket 4000] st)
  else match resume message st with
       | Some token =>
           match tokenToUser st !! token with
           | Some user => bind_user websocket userIp message true user token st
           | None => Raise TypeError st
           end
       | None =>
           let id := S (lastUserId st) in
           bind_user websocket userIp message false id fresh
             (getUser id (set_lastUserId id st))
       end.

(** A socket arrives at [/zone]. *)
Definition waitJoin (websocket : nat) (userIp : string) (st : State) : State :=
  if bool_decide (is_Some (bans st !! userIp))
  then emit [Send websocket (MReject YouAreBanned); Close websocket 4001] st
  else set_listeners (<[websocket := AwaitingJoin userIp]> (listeners st)) st.

(** A [join] message arrives on a socket: it is heard only by the
    one-shot listener of [waitJoin]. *)
Definition on_join (websocket : nat) (message : JoinMessage) (fresh : string)
    (st : State) : Res :=
  match listeners st !! websocket with
  | Some (AwaitingJoin userIp) =>
      join_callback websocket userIp message fresh (heard websocket st)
  | _ => Done st
  end.

Definition voteSkip (src : string) (user : nat) (st : State) : State :=
  match Playback.currentItem (playback st) with
  | Some item =>
      if negb (String.eqb (source (media item)) src) then st
      else count_vote (title (media item)) user st
  | None => st
  end.

(** [post /queue/skip], behind [requireUserToken]. *)
Definition post_queue_skip (user : nat) (src : string) (st : State) : Res :=
  match Playback.currentItem (playback st) with
  | Some item =>
      if negb (String.eqb (source (media item)) src) then Done st
      else
        (if negb (eventMode st) then Done (voteSkip src user st)
         else if has_tag "dj" user st
              then Done (skip (Some (UserSkipped (name_of user st) (title (media item)))) st)
              else status CantSkipDuringEventMode (Some user) st)
        >>> (λ s, Done (emit [Respond 202 Empty_body] s))
  | None => Done st
  end.

Definition tryQueueMedia (user : nat) (m : Media) (banger : bool) (st : State) : Res :=
  if eventMode st && negb (has_tag "dj" user st)
  then status EventModeOnlyDjsMayQueue (Some user) st
  else
    let userIp := userToIp st !! user in
    let existing := List.find (λ queued, mediaEquals (media queued) m)
                              (Playback.queue (playback st)) in
    let count := queued_by_ip userIp st in
    let dj := eventMode st && has_tag "dj" user st in
    match existing with
    | Some queued => status (AlreadyQueued (title (media queued))) (Some user) st
    | None =>
        if negb dj && Nat.leb (perUserQueueLimit (opts st)) count
        then status (AlreadyHaveInQueue count) (Some user) st
        else Done (playback_queueMedia m
                     {| info_userId := Some user; info_ip := userIp;
                        info_banger := banger |} st)
    end.

(** The listener of [echo] messages that [bindMessagingToUser] installs. *)
Definition echo_handler (user : nat) (text : string) (pos : list Z) (st : State) : Res :=
  let admin := echo_is_admin pos st in
  let valid := negb admin || has_tag "admin" user st in
  if negb valid
  then status CantRemoveAdminEcho (Some user) st
  else Done (put_echo user pos text st).

(** An [echo] message arrives on a socket. *)
Definition on_echo (websocket : nat) (text : string) (pos : list Z) (st : State) : Res :=
  match listeners st !! websocket with
  | Some (Joined user) => echo_handler user text pos st
  | _ => Done st
  end.

End SocketHost.

(** ** The host that is joined with a ticket *)

Module TicketHost.

(** [xws.app.use(requireNotBanned)] *)
Definition requireNotBanned (ip : string) (next : State → Res) (st : State) : Res :=
  if bool_decide (is_Some (bans st !! ip))
  then Done (emit [Respond 403 (Text_body YouAreBanned)] st)
  else next st.

(** [post /zone/join] *)
Definition post_zone_join (ip : string) (n a : string) (fresh : string) (st : State) : Res :=
  requireNotBanned ip
    (λ s, Done (emit [Respond 200 (Ticket_body fresh)]
                  (set_tickets (<[fresh := {| ticket_name := n; ticket_avatar := a |}]>
                                  (tickets s)) s)))
    st.

(** The handler of [ws /zone/:ticket]. *)
Definition ws_handler (websocket : nat) (ip : string) (ticket : Ticket) (fresh : string)
    (st : State) : Res :=
  let id := S (lastUserId st) in
  let st0 := getUser id (set_lastUserId id st) in
  let st1 := set_avatar id (ticket_avatar ticket) (set_name id (ticket_name ticket) st0) in
  let st2 := sendAll_user id st1 in
  let st3 := addUserToken id fresh st2 in
  let st4 := addConnectionToUser id websocket st3 in
  let st5 := set_userToIp (<[id := ip]> (userToIp st4)) st4 in
  let st6 := set_listeners (<[websocket := Joined id]> (listeners st5)) st5 in
  let st7 := set_connections (<[id := websocket]> (connections st6)) st6 in
  sendCoreState id st7
    >>> sendOnly (MAssign id fresh) id
    >>> sendOtherState id.

(** [ws /zone/:ticket] behind the ban check and the [ticket] parameter. *)
Definition ws_zone_ticket (websocket : nat) (ip : string) (id : string) (fresh : string)
    (st : State) : Res :=
  requireNotBanned ip
    (λ s, match tickets s !! id with
          | Some ticket => ws_handler websocket ip ticket fresh s
          | None => Done (emit [Respond 404 Empty_body] s)
          end)
    st.

Definition voteSkip (id : nat) (user : nat) (st : State) : State :=
  match Playback.currentItem (playback st) with
  | Some item =>
      if negb (Nat.eqb (itemId item) id) then st
      else count_vote (title (media item)) user st
  | None => st
  end.

(** [post /queue/skip], behind [requireUserToken]. *)
Definition post_queue_skip (user : nat) (id : nat) (st : State) : Res :=
  match Playback.currentItem (playback st) with
  | Some item =>
      if negb (Nat.eqb (itemId item) id)
      then Done (emit [Respond 404 (Text_body (NotPlaying id))] st)
      else if negb (eventMode st)
      then Done (emit [Respond 202 Empty_body] (voteSkip id user st))
      else if has_tag "dj" user st
      then Done (emit [Respond 204 Empty_body]
                   (skip (Some (UserSkipped (name_of user st) (title (media item)))) st))
      else Done (emit [Respond 403 (Text_body CantSkipDuringEventMode)] st)
  | None => Done (emit [Respond 404 (Text_body (NotPlaying id))] st)
  end.

Definition tryQueueMedia (user : nat) (m : Media) (banger : bool) (st : State) : Res :=
  if eventMode st && negb (has_tag "dj" user st)
  then Raise (Error OnlyDjsMayQueueDuringEventMode) st
  else
    let userIp := userToIp st !! user in
    let existing := List.find (λ queued, String.eqb (source (media queued)) (source m))
                              (Playback.queue (playback st)) in
    let count := queued_by_ip userIp st in
    let dj := eventMode st && has_tag "dj" user st in
    match existing with
    | Some queued => Raise (Error (AlreadyQueued (title (media queued)))) st
    | None =>
        if negb dj && Nat.leb (perUserQueueLimit (opts st)) count
        then Raise (Error (AlreadyHaveInQueue count)) st
        else Done (playback_queueMedia m
                     {| info_userId := Some user; info_ip := userIp;
                        info_banger := banger |} st)
    end.

(** [post /queue], once [pathToMedia] has resolved to [m]. *)
Definition post_queue (user : nat) (m : Media) (st : State) : Res :=
  try_catch
    (tryQueueMedia user m false st >>> (λ s, Done (emit [Respond 202 Empty_body] s)))
    (λ e s, Done (emit [Respond 400 (Error_body e)] s)).

(** [post /echoes], behind [requireUserToken]. *)
Definition post_echoes (user : nat) (text : string) (pos : list Z) (st : State) : State :=
  let admin := echo_is_admin pos st in
  let valid := negb admin || has_tag "admin" user st in
  if negb valid
  then emit [Respond 403 (Text_body CantRemoveAdminEcho)] st
  else emit [Respond 201 Empty_body] (put_echo user pos text st).

Definition getMediaStatus (probe : nat → MediaStatus) (m : Media) : MediaStatus :=
  match getStatus m with
  | Some p => probe p
  | None => available
  end.

(** One of the checks of [checkQueue], resumed with the status its probe
    resolved to. *)
Definition check (item : QueueItem) (s : MediaStatus) (st : State) : State :=
  match s with
  | failed => status_all (FailedToLoad (title (media item))) (playback_unqueue item st)
  | _ => st
  end.

(** [checkQueue]: one check per item pending when it is called, the
    checks resuming in the order of the queue, [probe] telling what each
    availability probe answers. *)
Definition checkQueue (probe : nat → MediaStatus) (st : State) : State :=
  foldl (λ s item, check item (getMediaStatus probe (media item)) s)
        st (Playback.queue (playback st)).

End TicketHost.

(** What the listeners of the engine broadcast when [playback.skip()] runs. *)
Definition skip_announcement (st : State) : list Out :=
  match Playback.queue (playback st) with
  | next :: _ =>
      broadcast (MPlay (Some (next, now st - (now st + Playback.startDelay (playback st))))) st
  | [] => broadcast (MPlay None) st
  end.

(** What [sendCoreState] and [sendOtherState] send, to a user connected
    through [socket]. *)
Definition current_play (st : State) : Msg :=
  MPlay match Playback.currentItem (playback st) with
        | Some item => Some (item, Playback.currentTime (now st) (playback st))
        | None => None
        end.

Definition core_state (socket : nat) (st : State) : list Out :=
  [Send socket (MUsers (roster st));
   Send socket (MQueue (Playback.queue (playback st)));
   Send socket (current_play st)].

Definition other_state (socket : nat) (st : State) : list Out :=
  [Send socket (MEchoesAdded (map_to_list (echoes st)).*2)].

(** The state a successful [join] ends in. *)
Definition joined_state (resumed : bool) (websocket : nat) (userIp : string)
    (message : JoinMessage) (user : nat) (token : string) (st : State) : State :=
  emit (other_state websocket (SocketHost.attach websocket userIp message user token st))
    ((if resumed then id else sendAll_user user)
       (emit (core_state websocket
                (SocketHost.attach websocket userIp message user token st)
              ++ [Send websocket (MAssign user token)])
          (SocketHost.attach websocket userIp message user token st))).

(** What a run of [checkQueue] says about one item, and which items it
    drops. *)
Definition failing (probe : nat → MediaStatus) (item : QueueItem) : bool :=
  match TicketHost.getMediaStatus probe (media item) with
  | failed => true
  | _ => false
  end.

Definition failure_notice (probe : nat → MediaStatus) (st : State) (item : QueueItem)
  : list Out :=
  if failing probe item
  then broadcast (MUnqueue (itemId item)) st
       ++ broadcast (MStatus (FailedToLoad (title (media item)))) st
  else [].

Definition with_queue (q : list QueueItem) (pb : Playback.t) : Playback.t :=
  Playback.mk (Playback.currentItem pb) (Playback.startTimestamp pb) q
              (Playback.nextId pb) (Playback.startDelay pb).

(** ** A small zone to run the hosts on

    Two users, alice (no tags) on socket 11 and bob (a dj) on socket 12;
    a song is playing and nothing is queued. *)

Definition alice : UserState :=
  {| userId := 1; name := Some "alice"; avatar := None; position := Some [3; 0; 4];
     emotes := []; tags := [] |}.

Definition bob : UserState :=
  {| userId := 2; name := Some "bob"; avatar := None; position := None;
     emotes := []; tags := ["dj"] |}.

Definition song (id : nat) (what : string) (probe : option nat) (by_user : nat) : QueueItem :=
  {| itemId := id;
     media := {| title := what; duration := 180000; source := "library:" +:+ what;
                 getStatus := probe |};
     info := {| info_userId := Some by_user; info_ip := Some "10.0.0.1";
                info_banger := false |} |}.

Definition room : State :=
  {| opts := DEFAULT_OPTIONS;
     heap := {[ 1%nat := alice; 2%nat := bob ]};
     users := {[ 1%nat; 2%nat ]};
     echoes := ∅;
     lastUserId := 2;
     tokenToUser := {[ "token-of-alice" := 1%nat; "token-of-bob" := 2%nat ]};
     userToToken := {[ 1%nat := "token-of-alice"; 2%nat := "token-of-bob" ]};
     userToIp := {[ 1%nat := "10.0.0.1"; 2%nat := "10.0.0.2" ]};
     connections := {[ 1%nat := 11%nat; 2%nat := 12%nat ]};
     userToConnections := {[ 1%nat := {[ 11%nat ]}; 2%nat := {[ 12%nat ]} ]};
     eventMode := false;
     skips := ∅;
     playback := Playback.mk (Some (song 0 "a" None 1)) 4000 [] 1 1000;
     tickets := ∅;
     bans := ∅;
     listeners := {[ 11%nat := Joined 1; 12%nat := Joined 2 ]};
     timers := [];
     now := 9000;
     log := [] |}.

(** The room with a second song pending, whose availability probe is
    probe 0, and the probe that answers [failed]. *)
Definition room_with_pending : State :=
  set_playback (with_queue [song 1 "b" (Some 0%nat) 2] (playback room)) room.

Definition all_failed (probe : nat) : MediaStatus := failed.

(** A third socket, 13, has arrived from alice's address and waits for its
    [join] message; the message resumes alice's session under another
    name. *)
Definition room_with_arrival : State :=
  SocketHost.waitJoin 13 "10.0.0.1" room.

Definition resume_renamed : JoinMessage :=
  {| join_name := "alicia"; join_token := Some "token-of-alice";
     join_password := None |}.

(** The room once alice's address has been banned. *)
Definition room_with_ban : State :=
  set_bans {[ "10.0.0.1" := {| bannee := "alice"; banner := "bob"; reason := None;
                               date := "2021-06-01T00:00:00.000Z" |} ]} room.

(** The room with nothing playing. *)
Definition idle_room : State :=
  set_playback (Playback.create 1000) room.

(** Alice's socket drops without a close handshake, and she comes back on
    socket 13 with her token. *)
Definition room_after_drop : State :=
  on_close 11 1006 room.

Definition room_after_return : State :=
  final (SocketHost.on_join 13 resume_renamed "fresh-token"
           (SocketHost.waitJoin 13 "10.0.0.1" room_after_drop)).

(** Socket 13 drops as well. *)
Definition room_after_second_drop : State :=
  on_close 13 1006 room_after_return.

(** ** More of the hosts: the remaining queue routes *)

(** [playback.queue.find((item) => item.itemId === itemId)]; [None] stands
    for a request value that is no number and so equals no item id. *)
Definition find_item (id : option nat) (st : State) : option QueueItem :=
  match id with
  | Some n => List.find (λ item, Nat.eqb (itemId item) n) (Playback.queue (playback st))
  | None => None
  end.

(** [dj || own || auth] of the routes [delete /queue/:itemId]. *)
Definition may_unqueue (user : nat) (item : QueueItem) (st : State) : bool :=
  (eventMode st && has_tag "dj" user st)
  || bool_decide (info_userId (info item) = Some user)
  || has_tag "admin" user st.

(** [EIGHT_MINUTES = 8 * 60 * SECONDS] *)
Definition EIGHT_MINUTES : Z := 8 * 60 * 1000.

(** [libraryTagToBanger], once the library has answered the search with
    [library]; [pick] is what [randomInt(0, extras.length - 1)] returns.
    The socket host has the same three lines inside its banger route. *)
Definition libraryTagToBanger (library : list Media) (pick : nat) : option Media :=
  List.filter (λ m, Z.leb (duration m) EIGHT_MINUTES) library !! pick.

Module SocketRoutes.

(** [delete /queue/:itemId], behind [requireUserToken]: no answer at all
    when the item is not pending, 202 otherwise, authorised or not. *)
Definition delete_queue (user : nat) (id : option nat) (st : State) : State :=
  match find_item id st with
  | Some item =>
      emit [Respond 202 Empty_body]
        (if may_unqueue user item st then playback_unqueue item st else st)
  | None => st
  end.

(** [authCommands.get('skip')]: the title is read through a non-null
    assertion, so the command fails when nothing is playing. *)
Definition command_skip (st : State) : Res :=
  match Playback.currentItem (playback st) with
  | Some item => Done (skip (Some (AdminSkipped (title (media item)))) st)
  | None => Raise TypeError st
  end.

End SocketRoutes.

Module TicketRoutes.

(** [delete /queue/:itemId], behind [requireUserToken]. *)
Definition delete_queue (user : nat) (id : option nat) (st : State) : State :=
  match find_item id st with
  | Some item =>
      if may_unqueue user item st
      then emit [Respond 204 Empty_body] (playback_unqueue item st)
      else emit [Respond 403 Empty_body] st
  | None => emit [Respond 404 Empty_body] st
  end.

(** The tables as [ws /zone/:ticket] leaves them before it sends the
    state. *)
Definition attach (websocket : nat) (ip : string) (ticket : Ticket) (fresh : string)
    (st : State) : State :=
  let id := S (lastUserId st) in
  let st0 := getUser id (set_lastUserId id st) in
  let st1 := set_avatar id (ticket_avatar ticket) (set_name id (ticket_name ticket) st0) in
  let st2 := sendAll_user id st1 in
  let st3 := addUserToken id fresh st2 in
  let st4 := addConnectionToUser id websocket st3 in
  let st5 := set_userToIp (<[id := ip]> (userToIp st4)) st4 in
  let st6 := set_listeners (<[websocket := Joined id]> (listeners st5)) st5 in
  set_connections (<[id := websocket]> (connections st6)) st6.

(** The state a join with a ticket ends in. *)
Definition joined_state (websocket : nat) (ip : string) (ticket : Ticket) (fresh : string)
    (st : State) : State :=
  emit (core_state websocket (attach websocket ip ticket fresh st)
        ++ [Send websocket (MAssign (S (lastUserId st)) fresh)]
        ++ other_state websocket (attach websocket ip ticket fresh st))
    (attach websocket ip ticket fresh st).

End TicketRoutes.

(** ** Invariants of the tables *)

(** The two token tables are inverse to each other, and no token is the
    empty string. *)
Definition tokens_consistent (st : State) : Prop :=
  (∀ u t, userToToken st !! u = Some t ↔ tokenToUser st !! t = Some u)
  ∧ (∀ t u, tokenToUser st !! t = Some u → truthy t = true).

(** Every user id in use was handed out by the counter. *)
Definition ids_bounded (st : State) : Prop :=
  (∀ u, u ∈ users st → (u ≤ lastUserId st)%nat)
  ∧ (∀ u, is_Some (heap st !! u) → (u ≤ lastUserId st)%nat)
  ∧ (∀ u, is_Some (userToToken st !! u) → (u ≤ lastUserId st)%nat)
  ∧ (∀ u, is_Some (connections st !! u) → (u ≤ lastUserId st)%nat).

(** Every echo sits at its own position and is at most 512 long. *)
Definition echoes_bounded (st : State) : Prop :=
  ∀ pos e, echoes st !! pos = Some e →
    echo_position e = pos ∧ (String.length (echo_text e) ≤ 512)%nat.

(** The record of a user who has just been created and named. *)
Definition newcomer (id : nat) (n : string) (a : option string) : UserState :=
  {| userId := id; name := Some n; avatar := a; position := None;
     emotes := []; tags := [] |}.

(** [st'] has the members of [st]: the registry, the user objects, the id
    counter, the token tables, the addresses, the connections, the bans
    and the tickets are the same. *)
Definition same_membership (st st' : State) : Prop :=
  users st' = users st ∧ heap st' = heap st ∧ lastUserId st' = lastUserId st
  ∧ tokenToUser st' = tokenToUser st ∧ userToToken st' = userToToken st
  ∧ userToIp st' = userToIp st ∧ connections st' = connections st
  ∧ userToConnections st' = userToConnections st
  ∧ bans st' = bans st ∧ tickets st' = tickets st ∧ eventMode st' = eventMode st.

(** ** More rooms to run the routes on *)

(** The room once a ticket has been issued to carol. *)
Definition room_with_ticket : State :=
  set_tickets {[ "ticket-of-carol" := {| ticket_name := "carol"; ticket_avatar := "cat" |} ]}
    room.

(** The room with one song of bob pending. *)
Definition busy_room : State :=
  set_playback (Playback.mk (Some (song 0 "a" None 1)) 4000 [song 1 "b" None 2] 2 1000) room.

(** The room with three songs pending, all queued from alice's address. *)
Definition full_room : State :=
  set_playback
    (Playback.mk (Some (song 0 "a" None 1)) 4000
       [song 1 "b" None 1; song 2 "c" None 1; song 3 "d" None 1] 4 1000)
    room.

(** The room with an echo of bob. *)
Definition room_with_echo : State :=
  put_echo 2 [1; 2] "hello" room.

(** A piece of an hour, and one of three minutes. *)
Definition long_piece : Media :=
  {| title := "symphony"; duration := 3600000; source := "library:symphony";
     getStatus := None |}.

Definition short_piece : Media :=
  {| title := "single"; duration := 180000; source := "library:single";
     getStatus := None |}.

(** Carol joins for the first time. *)
Definition carol_joins : JoinMessage :=
  {| join_name := "carol"; join_token := None; join_password := None |}.

(** ** Zones with another threshold *)

(** [x ≤ k] for a finite number [x = ±m × 2^e] and a whole number [k]. *)
Definition number_le (x : number) (k : Z) : Prop :=
  match x with
  | S754_zero _ => 0 ≤ k
  | S754_finite s m e =>
      let v := if s then Zneg m else Zpos m in
      if 0 <=? e then v * 2 ^ e ≤ k else v ≤ k * 2 ^ (- e)
  | _ => False
  end.

Definition member (i : nat) : UserState :=
  {| userId := i; name := Some ("user-" +:+ pretty i); avatar := None; position := None;
     emotes := []; tags := [] |}.

(** A zone of [n] users, [1] to [n], each on a socket of its own, with the
    vote-skip threshold [T]; a song is playing, nothing is queued, and the
    users [2] to [voted + 1] have voted to skip it. *)
Definition zone_of (n : nat) (T : number) (voted : nat) : State :=
  {| opts := {| userTimeout := 5 * 1000; perUserQueueLimit := 3;
                voteSkipThreshold := T; joinPassword := None;
                playbackStartDelay := 1 * 1000 |};
     heap := list_to_map ((λ i, (i, member i)) <$> seq 1 n);
     users := list_to_set (seq 1 n);
     echoes := ∅;
     lastUserId := n;
     tokenToUser := list_to_map ((λ i, ("token-" +:+ pretty i, i)) <$> seq 1 n);
     userToToken := list_to_map ((λ i, (i, "token-" +:+ pretty i)) <$> seq 1 n);
     userToIp := list_to_map ((λ i, (i, "10.0.0." +:+ pretty i)) <$> seq 1 n);
     connections := list_to_map ((λ i, (i, (100 + i)%nat)) <$> seq 1 n);
     userToConnections := list_to_map ((λ i, (i, {[ (100 + i)%nat ]})) <$> seq 1 n);
     eventMode := false;
     skips := list_to_set (seq 2 voted);
     playback := Playback.mk (Some (song 0 "a" None 1)) 4000 [] 1 1000;
     tickets := ∅;
     bans := ∅;
     listeners := list_to_map ((λ i, ((100 + i)%nat, Joined i)) <$> seq 1 n);
     timers := [];
     now := 9000;
     log := [] |}.

(** Twenty-five users, the threshold 0.56, thirteen votes cast. *)
Definition crowd : State := zone_of 25 (decimal 56 100) 13.

(** Ten users, the threshold 0.1, no vote cast. *)
Definition ten : State := zone_of 10 (decimal 1 10) 0.

(** * Properties *)

#[local] Set Warnings "-clear-no-such-hyp".

Ltac open_state st :=
  destruct st as [o h u e l tu ut ui c uc em s p tk b ls tm n lg]; cbn in *.

Ltac setters :=
  unfold set_heap, set_users, set_echoes, set_lastUserId, set_tokenToUser,
    set_userToToken, set_userToIp, set_connections, set_userToConnections,
    set_eventMode, set_skips, set_playback, set_tickets, set_bans, set_listeners,
    set_timers, set_log; cbn.

(** ** Removing a user *)

Section KillUser.

Variables (user : nat) (st : State).

Lemma killUser_users : users (killUser user st) = users st ∖ {[user]}.
Proof.
  unfold killUser, revokeUserToken, sendAll, emit.
  destruct (bool_decide (user ∈ users st)); cbn;
    destruct (userToToken st !! user) as [token|]; cbn;
    try destruct (truthy token); reflexivity.
Qed.

Lemma killUser_connections :
  connections (killUser user st) = delete user (connections st).
Proof.
  unfold killUser, revokeUserToken, sendAll, emit.
  destruct (bool_decide (user ∈ users st)); cbn;
    destruct (userToToken st !! user) as [token|]; cbn;
    try destruct (truthy token); reflexivity.
Qed.

Lemma killUser_userToConnections :
  userToConnections (killUser user st) = delete user (userToConnections st).
Proof.
  unfold killUser, revokeUserToken, sendAll, emit.
  destruct (bool_decide (user ∈ users st)); cbn;
    destruct (userToToken st !! user) as [token|]; cbn;
    try destruct (truthy token); reflexivity.
Qed.

Lemma killUser_userToToken :
  userToToken (killUser user st) = delete user (userToToken st).
Proof.
  unfold killUser, revokeUserToken, sendAll, emit.
  destruct (bool_decide (user ∈ users st)); cbn;
    destruct (userToToken st !! user) as [token|]; cbn;
    try destruct (truthy token); reflexivity.
Qed.

Lemma killUser_tokenToUser :
  tokenToUser (killUser user st) =
  match userToToken st !! user with
  | Some token => if truthy token then delete token (tokenToUser st) else tokenToUser st
  | None => tokenToUser st
  end.
Proof.
  unfold killUser, revokeUserToken, sendAll, emit.
  destruct (bool_decide (user ∈ users st)); cbn;
    destruct (userToToken st !! user) as [token|]; cbn;
    try destruct (truthy token); reflexivity.
Qed.

Lemma killUser_log :
  log (killUser user st) =
  log st ++ (if bool_decide (user ∈ users st) then broadcast (MLeave user) st else []).
Proof.
  unfold killUser, revokeUserToken, sendAll, emit.
  destruct (bool_decide (user ∈ users st)); cbn;
    destruct (userToToken st !! user) as [token|]; cbn;
    try destruct (truthy token); cbn; rewrite ?app_nil_r; reflexivity.
Qed.

(** What [killUser] does not touch. *)
Lemma killUser_frame :
  heap (killUser user st) = heap st
  ∧ echoes (killUser user st) = echoes st
  ∧ playback (killUser user st) = playback st
  ∧ skips (killUser user st) = skips st
  ∧ timers (killUser user st) = timers st
  ∧ listeners (killUser user st) = listeners st
  ∧ lastUserId (killUser user st) = lastUserId st.
Proof.
  unfold killUser, revokeUserToken, sendAll, emit.
  destruct (bool_decide (user ∈ users st)); cbn;
    destruct (userToToken st !! user) as [token|]; cbn;
    try destruct (truthy token); cbn; repeat split.
Qed.

Lemma killUser_twice : killUser user (killUser user st) = killUser user st.
Proof.
  assert (Hout : user ∉ users st ∖ {[user]}) by set_solver.
  unfold killUser, revokeUserToken, sendAll, emit.
  destruct (bool_decide (user ∈ users st)); cbn;
    destruct (userToToken st !! user) as [token|]; cbn;
    try destruct (truthy token); cbn.
  all: rewrite (bool_decide_eq_false_2 _ Hout); cbn.
  all: rewrite ?lookup_delete_eq; cbn.
  all: setters; rewrite ?delete_delete_eq; f_equal; set_solver.
Qed.

End KillUser.

(** C10. Removing a user is idempotent, also for what is said: [killUser]
    broadcasts [leave] only when the user is still in the registry, so a
    second call (the grace-period timer firing after a clean close already
    removed the user, say) changes nothing at all, appends nothing to the
    output, and the registry, the connection table and the token tables
    stay in the removed state. *)
Theorem killUser_idempotent (user : nat) (st : State) :
  killUser user (killUser user st) = killUser user st
  ∧ log (killUser user (killUser user st)) = log (killUser user st)
  ∧ log (killUser user st)
    = (log st ++ (if bool_decide (user ∈ users st)
                  then broadcast (MLeave user) st else []))
  ∧ (user ∉ users (killUser user st))
  ∧ connections (killUser user st) !! user = None
  ∧ userToConnections (killUser user st) !! user = None
  ∧ userToToken (killUser user st) !! user = None
  ∧ tokenToUser (killUser user st)
    = match userToToken st !! user with
      | Some token =>
          if truthy token then delete token (tokenToUser st) else tokenToUser st
      | None => tokenToUser st
      end.
Proof.
  split; [apply killUser_twice|].
  split; [by rewrite killUser_twice|].
  split; [apply killUser_log|].
  rewrite killUser_users, killUser_connections, killUser_userToConnections,
    killUser_userToToken, !lookup_delete_eq.
  repeat split; [set_solver | apply killUser_tokenToUser].
Qed.

(** ** Closing sockets and the grace period *)

Lemma isUserConnectionless_spec (user : nat) (st : State) :
  isUserConnectionless user st
  = bool_decide (default ∅ (userToConnections st !! user) = ∅).
Proof.
  unfold isUserConnectionless.
  destruct (userToConnections st !! user) as [conns|]; cbn.
  - apply bool_decide_ext. rewrite size_empty_iff. apply leibniz_equiv_iff.
  - symmetry. by apply bool_decide_eq_true_2.
Qed.

Lemma close_handler_clean (user messaging code : nat) (st : State) :
  Nat.eqb code 1000 || Nat.eqb code 1001 = true →
  close_handler user messaging code st
  = killUser user (removeConnectionFromUser user messaging st).
Proof. unfold close_handler. by intros ->. Qed.

Lemma close_handler_unclean (user messaging code : nat) (st : State) :
  Nat.eqb code 1000 || Nat.eqb code 1001 = false →
  close_handler user messaging code st
  = set_timers (timers st ++ [user]) (removeConnectionFromUser user messaging st).
Proof.
  unfold close_handler. intros ->.
  unfold removeConnectionFromUser.
  by destruct (userToConnections st !! user).
Qed.

Lemma removeConnectionFromUser_frame (user messaging : nat) (st : State) :
  users (removeConnectionFromUser user messaging st) = users st
  ∧ connections (removeConnectionFromUser user messaging st) = connections st
  ∧ tokenToUser (removeConnectionFromUser user messaging st) = tokenToUser st
  ∧ userToToken (removeConnectionFromUser user messaging st) = userToToken st
  ∧ log (removeConnectionFromUser user messaging st) = log st
  ∧ timers (removeConnectionFromUser user messaging st) = timers st
  ∧ listeners (removeConnectionFromUser user messaging st) = listeners st.
Proof.
  unfold removeConnectionFromUser.
  by destruct (userToConnections st !! user).
Qed.

Lemma timeout_callback_bound (user : nat) (st : State) :
  default ∅ (userToConnections st !! user) ≠ ∅ →
  timeout_callback user st = st.
Proof.
  intros H. unfold timeout_callback.
  rewrite isUserConnectionless_spec.
  by rewrite (bool_decide_eq_false_2 _ H).
Qed.

Lemma removeConnectionFromUser_channels (user messaging : nat) (st : State) :
  default ∅ (userToConnections (removeConnectionFromUser user messaging st) !! user)
  = default ∅ (userToConnections st !! user) ∖ {[messaging]}.
Proof.
  unfold removeConnectionFromUser.
  destruct (userToConnections st !! user) as [conns|] eqn:H; cbn.
  - by rewrite lookup_insert_eq.
  - rewrite H. cbn. set_solver.
Qed.

Lemma close_handler_timer_fires (user messaging code : nat) (st : State) :
  Nat.eqb code 1000 || Nat.eqb code 1001 = false →
  on_timeout (length (timers st)) (close_handler user messaging code st)
  = timeout_callback user (removeConnectionFromUser user messaging st).
Proof.
  intros Hcode. rewrite (close_handler_unclean _ _ _ _ Hcode).
  unfold on_timeout.
  change (timers (set_timers (timers st ++ [user])
                    (removeConnectionFromUser user messaging st)))
    with (timers st ++ [user]).
  rewrite list_lookup_middle by done. f_equal.
  assert (Hdel : ∀ l : list nat, delete (length l) (l ++ [user]) = l).
  { induction l as [|x l IH]; [done|].
    change (x :: delete (length l) (l ++ [user]) = x :: l). by f_equal. }
  rewrite Hdel.
  unfold removeConnectionFromUser.
  destruct (userToConnections st !! user); by open_state st.
Qed.

Lemma close_handler_without_timer (user messaging code : nat) (st : State) :
  Nat.eqb code 1000 || Nat.eqb code 1001 = false →
  set_timers (timers st) (close_handler user messaging code st)
  = removeConnectionFromUser user messaging st.
Proof.
  intros Hcode. rewrite (close_handler_unclean _ _ _ _ Hcode).
  unfold removeConnectionFromUser.
  destruct (userToConnections st !! user); by open_state st.
Qed.

(** C2, as the code has it.  A socket bound to a user closes.  With close
    code 1000 or 1001 the user is removed on the spot: [leave] is
    broadcast (the user being in the registry), the token is revoked, the
    user leaves the registry and the connection table, and no timer is
    started.  With any other code nothing is removed and nothing is said:
    the socket is taken out of the user's set of channels and one more
    timer is pending for the user, the last of the list.  If that timer
    fires before anything else happens, the user is removed, exactly as by
    a clean close, when the socket was the user's only channel, and stays
    when another channel is bound.  Whatever happens before it fires, the
    user is removed when the socket was the only channel and the user's
    set of channels is still the one the close left.  And whenever a
    timer of the user fires, the user is removed exactly if no channel is
    bound to the user at that moment; otherwise the firing changes nothing
    but the list of pending timers.  No timer is ever taken back. *)
Theorem close_removes_or_starts_grace_period
    (socket code user : nat) (st : State) :
  listeners st !! socket = Some (Joined user) →
  (if Nat.eqb code 1000 || Nat.eqb code 1001
   then (user ∉ users (on_close socket code st))
        ∧ connections (on_close socket code st) !! user = None
        ∧ userToConnections (on_close socket code st) !! user = None
        ∧ userToToken (on_close socket code st) !! user = None
        ∧ tokenToUser (on_close socket code st)
          = match userToToken st !! user with
            | Some token =>
                if truthy token then delete token (tokenToUser st) else tokenToUser st
            | None => tokenToUser st
            end
        ∧ log (on_close socket code st)
          = (log st ++ (if bool_decide (user ∈ users st)
                        then broadcast (MLeave user) st else []))
        ∧ timers (on_close socket code st) = timers st
   else users (on_close socket code st) = users st
        ∧ connections (on_close socket code st) = connections st
        ∧ tokenToUser (on_close socket code st) = tokenToUser st
        ∧ userToToken (on_close socket code st) = userToToken st
        ∧ log (on_close socket code st) = log st
        ∧ default ∅ (userToConnections (on_close socket code st) !! user)
          = default ∅ (userToConnections st !! user) ∖ {[socket]}
        ∧ timers (on_close socket code st) = (timers st ++ [user])
        ∧ on_timeout (length (timers st)) (on_close socket code st)
          = (if bool_decide (default ∅ (userToConnections st !! user) ∖ {[socket]} = ∅)
             then on_close socket 1000 st
             else set_timers (timers st) (on_close socket code st))
        ∧ (if bool_decide (default ∅ (userToConnections st !! user) ∖ {[socket]} = ∅)
           then (user ∉ users (on_timeout (length (timers st)) (on_close socket code st)))
                ∧ log (on_timeout (length (timers st)) (on_close socket code st))
                  = (log st ++ (if bool_decide (user ∈ users st)
                                then broadcast (MLeave user) st else []))
           else users (on_timeout (length (timers st)) (on_close socket code st))
                = users st
                ∧ log (on_timeout (length (timers st)) (on_close socket code st))
                  = log st)
        ∧ ∀ (later : State) (k : nat),
            timers later !! k = Some user →
            userToConnections later !! user
            = userToConnections (on_close socket code st) !! user →
            default ∅ (userToConnections st !! user) ∖ {[socket]} = ∅ →
            (user ∉ users (on_timeout k later))
            ∧ connections (on_timeout k later) !! user = None
            ∧ userToToken (on_timeout k later) !! user = None
            ∧ log (on_timeout k later)
              = (log later ++ (if bool_decide (user ∈ users later)
                               then broadcast (MLeave user) later else [])))
  ∧ ∀ (later : State) (k : nat),
      timers later !! k = Some user →
      timers (on_timeout k later) = delete k (timers later)
      ∧ (if bool_decide (default ∅ (userToConnections later !! user) = ∅)
         then (user ∉ users (on_timeout k later))
              ∧ connections (on_timeout k later) !! user = None
              ∧ userToToken (on_timeout k later) !! user = None
              ∧ log (on_timeout k later)
                = (log later ++ (if bool_decide (user ∈ users later)
                                 then broadcast (MLeave user) later else []))
         else on_timeout k later = set_timers (delete k (timers later)) later).
Proof.
  intros Hbound.
  assert (Hclean : on_close socket 1000 st
                   = killUser user
                       (removeConnectionFromUser user socket
                          (set_listeners (delete socket (listeners st)) st))).
  { unfold on_close. rewrite Hbound. by apply close_handler_clean. }
  assert (Hkilled :
    (user ∉ users (on_close socket 1000 st))
    ∧ connections (on_close socket 1000 st) !! user = None
    ∧ userToConnections (on_close socket 1000 st) !! user = None
    ∧ userToToken (on_close socket 1000 st) !! user = None
    ∧ tokenToUser (on_close socket 1000 st)
      = match userToToken st !! user with
        | Some token =>
            if truthy token then delete token (tokenToUser st) else tokenToUser st
        | None => tokenToUser st
        end
    ∧ log (on_close socket 1000 st)
      = (log st ++ (if bool_decide (user ∈ users st)
                    then broadcast (MLeave user) st else []))
    ∧ timers (on_close socket 1000 st) = timers st).
  { rewrite Hclean.
    rewrite killUser_users, killUser_connections, killUser_userToConnections,
      killUser_userToToken, killUser_tokenToUser, killUser_log, !lookup_delete_eq.
    destruct (killUser_frame user
      (removeConnectionFromUser user socket
         (set_listeners (delete socket (listeners st)) st)))
      as (_ & _ & _ & _ & -> & _).
    destruct (removeConnectionFromUser_frame user socket
      (set_listeners (delete socket (listeners st)) st))
      as (-> & Hc & -> & -> & -> & -> & _).
    unfold broadcast. rewrite Hc.
    repeat split; set_solver. }
  assert (Hfiring : ∀ (later : State) (k : nat),
    timers later !! k = Some user →
    timers (on_timeout k later) = delete k (timers later)
    ∧ (if bool_decide (default ∅ (userToConnections later !! user) = ∅)
       then (user ∉ users (on_timeout k later))
            ∧ connections (on_timeout k later) !! user = None
            ∧ userToToken (on_timeout k later) !! user = None
            ∧ log (on_timeout k later)
              = (log later ++ (if bool_decide (user ∈ users later)
                               then broadcast (MLeave user) later else []))
       else on_timeout k later = set_timers (delete k (timers later)) later)).
  { intros later k Htimer. split.
    - unfold on_timeout, timeout_callback. rewrite Htimer.
      destruct (isUserConnectionless user _).
      + by destruct (killUser_frame user (set_timers (delete k (timers later)) later))
          as (_ & _ & _ & _ & -> & _).
      + reflexivity.
    - unfold on_timeout, timeout_callback. rewrite Htimer.
      rewrite isUserConnectionless_spec. cbn.
      destruct (bool_decide (default ∅ (userToConnections later !! user) = ∅)).
      + rewrite killUser_users, killUser_connections, killUser_userToToken,
          killUser_log, !lookup_delete_eq.
        repeat split. set_solver.
      + reflexivity. }
  split; [|exact Hfiring].
  destruct (Nat.eqb code 1000 || Nat.eqb code 1001) eqn:Hcode.
  - assert (Hsame : on_close socket code st = on_close socket 1000 st).
    { rewrite Hclean. unfold on_close. rewrite Hbound.
      by apply close_handler_clean. }
    rewrite Hsame. exact Hkilled.
  - assert (Hfired :
      on_timeout (length (timers st)) (on_close socket code st)
      = timeout_callback user
          (removeConnectionFromUser user socket
             (set_listeners (delete socket (listeners st)) st))).
    { unfold on_close. rewrite Hbound.
      by apply (close_handler_timer_fires user socket code
                  (set_listeners (delete socket (listeners st)) st)). }
    assert (Hafter :
      on_close socket code st
      = set_timers (timers st ++ [user])
          (removeConnectionFromUser user socket
             (set_listeners (delete socket (listeners st)) st))).
    { unfold on_close. rewrite Hbound.
      by apply (close_handler_unclean user socket code
                  (set_listeners (delete socket (listeners st)) st)). }
    pose proof (removeConnectionFromUser_channels user socket
                  (set_listeners (delete socket (listeners st)) st)) as Hchannels.
    change (userToConnections (set_listeners (delete socket (listeners st)) st))
      with (userToConnections st) in Hchannels.
    destruct (removeConnectionFromUser_frame user socket
      (set_listeners (delete socket (listeners st)) st))
      as (Hu & Hc & Htu & Hut & Hlog & Ht & _).
    assert (Hwithout :
      set_timers (timers st) (on_close socket code st)
      = removeConnectionFromUser user socket
          (set_listeners (delete socket (listeners st)) st)).
    { unfold on_close. rewrite Hbound.
      by apply (close_handler_without_timer user socket code
                  (set_listeners (delete socket (listeners st)) st)). }
    assert (Hleft :
      default ∅ (userToConnections (on_close socket code st) !! user)
      = default ∅ (userToConnections st !! user) ∖ {[socket]})
      by by rewrite Hafter.
    rewrite Hfired. unfold timeout_callback.
    rewrite isUserConnectionless_spec, Hchannels.
    rewrite Hwithout, <- Hclean.
    refine (conj _ (conj _ (conj _ (conj _ (conj _ (conj _ (conj _
             (conj _ (conj _ _))))))))).
    + by rewrite Hafter.
    + by rewrite Hafter.
    + by rewrite Hafter.
    + by rewrite Hafter.
    + by rewrite Hafter.
    + exact Hleft.
    + by rewrite Hafter.
    + reflexivity.
    + destruct (bool_decide (default ∅ (userToConnections st !! user) ∖ {[socket]} = ∅)).
      * destruct Hkilled as (Hout & _ & _ & _ & _ & Hl & _). by split.
      * by split.
    + intros later k Htimer Hunchanged Honly.
      destruct (Hfiring later k Htimer) as [_ Hremoved].
      rewrite Hunchanged, Hleft, Honly in Hremoved.
      by rewrite bool_decide_eq_true_2 in Hremoved.
Qed.

(** C2 as stated fails: alice's socket drops without a close handshake, she
    comes back on socket 13 within the grace period, and that socket drops
    as well.  When the timer of the first drop fires she is removed,
    although a channel has rebound to her in the meantime and the timer of
    the second drop is still pending. *)
Lemma rebound_and_dropped_again_is_removed :
  timers room_after_drop = [1%nat]
  ∧ listeners room_after_return !! 13%nat = Some (Joined 1)
  ∧ userToConnections room_after_return !! 1%nat = Some {[ 13%nat ]}
  ∧ timers room_after_return = [1%nat]
  ∧ timers room_after_second_drop = [1%nat; 1%nat]
  ∧ users room_after_second_drop = {[ 1%nat; 2%nat ]}
  ∧ users (on_timeout 0 room_after_second_drop) = {[ 2%nat ]}
  ∧ timers (on_timeout 0 room_after_second_drop) = [1%nat].
Proof. vm_compute. repeat split. Qed.

(** ** Skipping and voting *)

Lemma playback_skip_eq (st : State) :
  playback_skip st
  = match Playback.queue (playback st) with
    | next :: rest =>
        on_playback (Playback.EvPlay next)
          (set_playback (Playback.promote next rest (now st) (playback st)) st)
    | [] =>
        on_playback Playback.EvStop
          (set_playback (Playback.mk None (Playback.startTimestamp (playback st)) []
                           (Playback.nextId (playback st))
                           (Playback.startDelay (playback st))) st)
    end.
Proof.
  unfold playback_skip, Playback.skip.
  destruct (Playback.queue (playback st)); reflexivity.
Qed.

Lemma skip_eq (message : option Text) (st : State) :
  skip message st
  = playback_skip match message with
                  | Some text => status_all text st
                  | None => st
                  end.
Proof. reflexivity. Qed.

Lemma skip_playback (message : option Text) (st : State) :
  playback (skip message st) = (Playback.skip (now st) (playback st)).1.
Proof.
  rewrite skip_eq, playback_skip_eq.
  unfold Playback.skip, status_all, sendAll, emit. open_state st.
  destruct message; cbn; destruct (Playback.queue p); reflexivity.
Qed.

Lemma skip_skips (message : option Text) (st : State) :
  skips (skip message st)
  = match Playback.queue (playback st) with
    | [] => skips st
    | _ :: _ => ∅
    end.
Proof.
  rewrite skip_eq, playback_skip_eq. unfold status_all, sendAll, emit.
  open_state st.
  destruct message; cbn; destruct (Playback.queue p); reflexivity.
Qed.

Lemma skip_log (message : option Text) (st : State) :
  log (skip message st)
  = (log st
     ++ match message with
        | Some text => broadcast (MStatus text) st
        | None => []
        end)
    ++ skip_announcement st.
Proof.
  rewrite skip_eq, playback_skip_eq.
  unfold skip_announcement, status_all, sendAll, emit, broadcast.
  open_state st.
  destruct message; cbn; destruct (Playback.queue p); cbn;
    rewrite ?app_nil_r; reflexivity.
Qed.

Lemma skip_frame (message : option Text) (st : State) :
  users (skip message st) = users st
  ∧ heap (skip message st) = heap st
  ∧ connections (skip message st) = connections st
  ∧ echoes (skip message st) = echoes st
  ∧ eventMode (skip message st) = eventMode st
  ∧ now (skip message st) = now st.
Proof.
  rewrite skip_eq, playback_skip_eq. unfold status_all, sendAll, emit.
  open_state st.
  destruct message; cbn; destruct (Playback.queue p); cbn;
    repeat split.
Qed.

(** [Math.ceil] is a ceiling: of a finite number it is the least whole
    number that is at least the number. *)
Lemma Math_ceil_least (x : number) (z : Z) :
  Math_ceil x = Int z → ∀ k : Z, z ≤ k ↔ number_le x k.
Proof.
  destruct x as [s|s| |s m e]; cbn; try (by destruct s); try done.
  - intros [= <-]. done.
  - intros [= <-] k. destruct (Z.leb_spec 0 e) as [He|He]; [done|].
    assert (Hd : 0 < 2 ^ (- e)) by (apply Z.pow_pos_nonneg; lia).
    set (v := if s then Z.neg m else Z.pos m).
    split.
    + intros H.
      pose proof (Z.mul_div_le (- v) (2 ^ (- e)) Hd). nia.
    + intros H.
      assert (- k ≤ - v / 2 ^ (- e)) by (apply Z.div_le_lower_bound; [done|nia]).
      lia.
Qed.

Lemma count_vote_reached (what : string) (user : nat) (st : State) :
  at_least (size ({[user]} ∪ skips st)) (skip_target st) = true →
  count_vote what user st
  = skip (Some (VotedToSkip what)) (set_skips ({[user]} ∪ skips st) st).
Proof.
  intros H. unfold count_vote.
  change (skip_target (set_skips ({[user]} ∪ skips st) st)) with (skip_target st).
  cbn. by rewrite H.
Qed.

Lemma count_vote_below (what : string) (user : nat) (st : State) :
  at_least (size ({[user]} ∪ skips st)) (skip_target st) = false →
  count_vote what user st
  = status_all (VotesToSkip (size ({[user]} ∪ skips st)) (skip_target st))
      (set_skips ({[user]} ∪ skips st) st).
Proof.
  intros H. unfold count_vote.
  change (skip_target (set_skips ({[user]} ∪ skips st) st)) with (skip_target st).
  cbn. by rewrite H.
Qed.

Lemma voteSkip_current (user : nat) (item : QueueItem) (st : State) :
  Playback.currentItem (playback st) = Some item →
  TicketHost.voteSkip (itemId item) user st = count_vote (title (media item)) user st
  ∧ SocketHost.voteSkip (source (media item)) user st
    = count_vote (title (media item)) user st.
Proof.
  intros H. unfold TicketHost.voteSkip, SocketHost.voteSkip.
  by rewrite H, Nat.eqb_refl, String.eqb_refl.
Qed.

Lemma vote_again (user : nat) (votes : gset nat) :
  user ∈ votes → {[user]} ∪ votes = votes.
Proof. set_solver. Qed.

(** C1, as the code has it.  A vote to skip the item that is playing, by
    [user], with [N] users in the registry and threshold [T], a binary64
    number.  The vote set becomes [{user} ∪ skips]; its size is the tally.
    The target is [Math.ceil] of the floating-point product of [N] and
    [T]: when that product is finite, the least whole number that is at
    least the product as rounded to the nearest binary64 number.  If the
    tally is [>=] the target the item is skipped ([skip] is run: the
    engine leaves the current item, after the broadcast "voted to skip");
    otherwise nothing is skipped and the running tally, with the target,
    is broadcast instead.  A user already in the vote set does not change
    the set, hence not the tally.  Both hosts do the same. *)
Theorem vote_skip_at_threshold (user : nat) (item : QueueItem) (st : State) :
  Playback.currentItem (playback st) = Some item →
  TicketHost.voteSkip (itemId item) user st
  = SocketHost.voteSkip (source (media item)) user st
  ∧ skip_target st
    = Math_ceil (times (number_of_Z (Z.of_nat (size (users st))))
                       (voteSkipThreshold (opts st)))
  ∧ (∀ z : Z,
       skip_target st = Int z →
       (∀ k : Z,
          z ≤ k
          ↔ number_le (times (number_of_Z (Z.of_nat (size (users st))))
                             (voteSkipThreshold (opts st))) k)
       ∧ (at_least (size ({[user]} ∪ skips st)) (skip_target st) = true
          ↔ z ≤ Z.of_nat (size ({[user]} ∪ skips st))))
  ∧ (if at_least (size ({[user]} ∪ skips st)) (skip_target st)
     then playback (TicketHost.voteSkip (itemId item) user st)
          = (Playback.skip (now st) (playback st)).1
          ∧ Playback.currentItem (playback (TicketHost.voteSkip (itemId item) user st))
            = head (Playback.queue (playback st))
          ∧ log (TicketHost.voteSkip (itemId item) user st)
            = (log st ++ broadcast (MStatus (VotedToSkip (title (media item)))) st)
              ++ skip_announcement st
     else playback (TicketHost.voteSkip (itemId item) user st) = playback st
          ∧ skips (TicketHost.voteSkip (itemId item) user st) = {[user]} ∪ skips st
          ∧ log (TicketHost.voteSkip (itemId item) user st)
            = log st ++ broadcast (MStatus (VotesToSkip (size ({[user]} ∪ skips st))
                                              (skip_target st))) st)
  ∧ size ({[user]} ∪ skips st)
    = (if bool_decide (user ∈ skips st) then size (skips st) else S (size (skips st)))
  ∧ {[user]} ∪ ({[user]} ∪ skips st) = {[user]} ∪ skips st.
Proof.
  intros Hcur.
  destruct (voteSkip_current user item st Hcur) as [HB HA].
  split; [by rewrite HA, HB|].
  split; [reflexivity|].
  split; [|split; [|split]].
  - intros z Hz. split.
    + by apply Math_ceil_least.
    + rewrite Hz. cbn. apply Z.leb_le.
  - rewrite HB.
    destruct (at_least (size ({[user]} ∪ skips st)) (skip_target st)) eqn:Hz.
    + rewrite (count_vote_reached _ _ _ Hz).
      rewrite skip_playback, skip_log. cbn.
      split; [reflexivity|split; [|reflexivity]].
      unfold Playback.skip. open_state st. by destruct (Playback.queue p).
    + rewrite (count_vote_below _ _ _ Hz).
      repeat split.
  - case_bool_decide as Hin.
    + by rewrite (vote_again _ _ Hin).
    + rewrite size_union by set_solver. by rewrite size_singleton.
  - set_solver.
Qed.

(** C1 as stated fails, whichever way the threshold is read.  In a zone of
    twenty-five with the threshold 0.56 the fourteenth vote reaches
    [ceil(25 × 0.56) = 14], yet nothing is skipped: the product is rounded
    to the number just above 14 and the target is 15.  In a zone of ten
    with the threshold 0.1 one vote forces the skip, although the number
    that the literal 0.1 denotes is above one tenth and ten times it above
    1: the product is rounded to 1. *)
Lemma vote_target_is_rounded :
  (Qceiling (inject_Z 25 * (56 # 100)) = 14
   ∧ size (users crowd) = 25%nat
   ∧ voteSkipThreshold (opts crowd) = decimal 56 100
   ∧ size ({[ 1%nat ]} ∪ skips crowd) = 14%nat
   ∧ skip_target crowd = Int 15
   ∧ playback (TicketHost.voteSkip 0 1 crowd) = playback crowd
   ∧ playback (SocketHost.voteSkip "library:a" 1 crowd) = playback crowd
   ∧ log (TicketHost.voteSkip 0 1 crowd)
     = broadcast (MStatus (VotesToSkip 14 (Int 15))) crowd)
  ∧ (size (users ten) = 10%nat
     ∧ voteSkipThreshold (opts ten) = S754_finite false 7205759403792794 (-56)
     ∧ 1 * 2 ^ 56 < 10 * 7205759403792794
     ∧ size ({[ 1%nat ]} ∪ skips ten) = 1%nat
     ∧ skip_target ten = Int 1
     ∧ Playback.currentItem (playback (TicketHost.voteSkip 0 1 ten)) = None
     ∧ Playback.currentItem (playback (SocketHost.voteSkip "library:a" 1 ten)) = None).
Proof. vm_compute. repeat split. Qed.

Example room_votes :
  skips (TicketHost.voteSkip 0 1 room) = {[ 1%nat ]}
  ∧ skip_target room = Int 2
  ∧ log (TicketHost.voteSkip 0 1 room)
    = [Send 12 (MStatus (VotesToSkip 1 (Int 2)));
       Send 11 (MStatus (VotesToSkip 1 (Int 2)))].
Proof. vm_compute. repeat split. Qed.

(** The literals of the thresholds, and the product that costs a vote. *)
Example threshold_literals :
  decimal 6 10 = S754_finite false 0x13333333333333 (-53)
  ∧ decimal 56 100 = S754_finite false 0x11eb851eb851ec (-53)
  ∧ decimal 1 10 = S754_finite false 0x1999999999999a (-56)
  ∧ number_of_Z 25 = S754_finite false 0x19000000000000 (-48)
  ∧ times (number_of_Z 25) (decimal 56 100) = S754_finite false 0x1c000000000001 (-49)
  ∧ times (number_of_Z 10) (decimal 1 10) = S754_finite false 0x10000000000000 (-52).
Proof. vm_compute. repeat split. Qed.

(** ** The vote set and the playing item *)

Lemma voteSkip_idle (user : nat) (st : State) :
  Playback.currentItem (playback st) = None →
  (∀ id, TicketHost.voteSkip id user st = st)
  ∧ (∀ src, SocketHost.voteSkip src user st = st).
Proof.
  intros H. unfold TicketHost.voteSkip, SocketHost.voteSkip. by rewrite H.
Qed.

Lemma playback_queueMedia_idle (m : Media) (i : QueueInfo) (st : State) :
  Playback.currentItem (playback st) = None →
  skips (playback_queueMedia m i st) = ∅
  ∧ Playback.currentItem (playback (playback_queueMedia m i st))
    = Some {| itemId := Playback.nextId (playback st); media := m; info := i |}.
Proof.
  intros H. unfold playback_queueMedia, Playback.queueMedia.
  rewrite H. cbn. split; reflexivity.
Qed.

(** C7, as the code has it.  The vote set is cleared by the listener of the
    engine's [play] event, that is whenever an item starts playing: when a
    skip, forced by votes or not, promotes the head of the queue, and when
    an item queued while idle is promoted.  When [skip] finds the queue
    empty the engine goes idle with [stop] and the vote set is left as it
    is.  While idle a vote is not counted, so the votes left over are never
    counted for another item. *)
Theorem votes_cleared_when_an_item_starts
    (message : option Text) (user : nat) (m : Media) (i : QueueInfo) (st : State) :
  match Playback.queue (playback st) with
  | next :: rest =>
      skips (skip message st) = ∅
      ∧ Playback.currentItem (playback (skip message st)) = Some next
      ∧ Playback.queue (playback (skip message st)) = rest
  | [] =>
      skips (skip message st) = skips st
      ∧ Playback.currentItem (playback (skip message st)) = None
      ∧ Playback.queue (playback (skip message st)) = []
  end
  ∧ match Playback.currentItem (playback st) with
    | None =>
        (∀ id, TicketHost.voteSkip id user st = st)
        ∧ (∀ src, SocketHost.voteSkip src user st = st)
        ∧ skips (playback_queueMedia m i st) = ∅
        ∧ Playback.currentItem (playback (playback_queueMedia m i st))
          = Some {| itemId := Playback.nextId (playback st); media := m; info := i |}
    | Some _ => True
    end.
Proof.
  split.
  - rewrite skip_skips, skip_playback. unfold Playback.skip.
    open_state st. by destruct (Playback.queue p).
  - destruct (Playback.currentItem (playback st)) eqn:Hcur; [done|].
    destruct (voteSkip_idle user st Hcur) as [HB HA].
    destruct (playback_queueMedia_idle m i st Hcur) as [Hs Hc].
    by repeat split.
Qed.

(** C7 as stated fails: alice and bob both vote to skip the only song; the
    second vote reaches the target, the song is skipped, the queue being
    empty the zone goes idle, and the vote set still holds both votes. *)
Lemma votes_survive_skip_to_idle :
  Playback.queue (playback room) = []
  ∧ Playback.currentItem (playback (TicketHost.voteSkip 0 2 (TicketHost.voteSkip 0 1 room)))
    = None
  ∧ skips (TicketHost.voteSkip 0 2 (TicketHost.voteSkip 0 1 room)) = {[ 1%nat; 2%nat ]}
  ∧ skips (SocketHost.voteSkip "library:a" 2 (SocketHost.voteSkip "library:a" 1 room))
    = {[ 1%nat; 2%nat ]}
  ∧ skips (skip None (TicketHost.voteSkip 0 1 room)) ≠ ∅.
Proof. vm_compute. repeat split. discriminate. Qed.

(** ** Event mode *)

Lemma sendOnly_eq (m : Msg) (user : nat) (st : State) :
  sendOnly m user st
  = match connections st !! user with
    | Some socket => Done (emit [Send socket m] st)
    | None => Raise TypeError st
    end.
Proof. reflexivity. Qed.

(** A private message changes nothing but the output. *)
Lemma sendOnly_frame (m : Msg) (user : nat) (st : State) :
  set_log (log st) (final (sendOnly m user st)) = st.
Proof.
  rewrite sendOnly_eq. by destruct (connections st !! user).
Qed.

Lemma post_queue_skip_vote (user : nat) (item : QueueItem) (st : State) :
  Playback.currentItem (playback st) = Some item →
  eventMode st = false →
  TicketHost.post_queue_skip user (itemId item) st
  = Done (emit [Respond 202 Empty_body] (TicketHost.voteSkip (itemId item) user st))
  ∧ SocketHost.post_queue_skip user (source (media item)) st
    = Done (emit [Respond 202 Empty_body]
              (SocketHost.voteSkip (source (media item)) user st)).
Proof.
  intros Hcur Hmode.
  unfold TicketHost.post_queue_skip, SocketHost.post_queue_skip.
  by rewrite Hcur, Hmode, Nat.eqb_refl, String.eqb_refl.
Qed.

Lemma post_queue_skip_dj (user : nat) (item : QueueItem) (st : State) :
  Playback.currentItem (playback st) = Some item →
  eventMode st = true →
  has_tag "dj" user st = true →
  TicketHost.post_queue_skip user (itemId item) st
  = Done (emit [Respond 204 Empty_body]
            (skip (Some (UserSkipped (name_of user st) (title (media item)))) st))
  ∧ SocketHost.post_queue_skip user (source (media item)) st
    = Done (emit [Respond 202 Empty_body]
              (skip (Some (UserSkipped (name_of user st) (title (media item)))) st)).
Proof.
  intros Hcur Hmode Hdj.
  unfold TicketHost.post_queue_skip, SocketHost.post_queue_skip.
  by rewrite Hcur, Hmode, Hdj, Nat.eqb_refl, String.eqb_refl.
Qed.

Lemma post_queue_skip_refused (user : nat) (item : QueueItem) (st : State) :
  Playback.currentItem (playback st) = Some item →
  eventMode st = true →
  has_tag "dj" user st = false →
  TicketHost.post_queue_skip user (itemId item) st
  = Done (emit [Respond 403 (Text_body CantSkipDuringEventMode)] st)
  ∧ SocketHost.post_queue_skip user (source (media item)) st
    = match connections st !! user with
      | Some socket =>
          Done (emit [Send socket (MStatus CantSkipDuringEventMode);
                      Respond 202 Empty_body] st)
      | None => Raise TypeError st
      end.
Proof.
  intros Hcur Hmode Hdj.
  unfold TicketHost.post_queue_skip, SocketHost.post_queue_skip.
  rewrite Hcur, Hmode, Hdj, Nat.eqb_refl, String.eqb_refl. cbn.
  split; [reflexivity|].
  unfold status. rewrite sendOnly_eq.
  destruct (connections st !! user); cbn; [|reflexivity].
  unfold emit. cbn. by rewrite <- app_assoc.
Qed.

Lemma tryQueueMedia_event_mode (user : nat) (m : Media) (banger : bool) (st : State) :
  eventMode st = true →
  has_tag "dj" user st = false →
  TicketHost.tryQueueMedia user m banger st
  = Raise (Error OnlyDjsMayQueueDuringEventMode) st
  ∧ SocketHost.tryQueueMedia user m banger st
    = match connections st !! user with
      | Some socket => Done (emit [Send socket (MStatus EventModeOnlyDjsMayQueue)] st)
      | None => Raise TypeError st
      end.
Proof.
  intros Hmode Hdj.
  unfold TicketHost.tryQueueMedia, SocketHost.tryQueueMedia.
  rewrite Hmode, Hdj. cbn. unfold status. by rewrite sendOnly_eq.
Qed.

(** C4, as the code has it.  The item [item] is playing.  While event mode
    is active: a user without the dj tag cannot enqueue (the attempt ends
    in an error, or in a private status, and leaves the zone as it was),
    and the skip request of such a user is refused (403, or a private
    "can't skip during event mode") without any vote being recorded or
    anything being skipped; the skip request of a dj skips the item at
    once.  Outside event mode the skip request of any user is a vote. *)
Theorem event_mode_reserves_queue_and_skip_for_djs
    (user : nat) (item : QueueItem) (m : Media) (banger : bool) (st : State) :
  Playback.currentItem (playback st) = Some item →
  if eventMode st
  then if has_tag "dj" user st
       then TicketHost.post_queue_skip user (itemId item) st
            = Done (emit [Respond 204 Empty_body]
                      (skip (Some (UserSkipped (name_of user st) (title (media item)))) st))
            ∧ SocketHost.post_queue_skip user (source (media item)) st
              = Done (emit [Respond 202 Empty_body]
                        (skip (Some (UserSkipped (name_of user st) (title (media item)))) st))
            ∧ playback (final (TicketHost.post_queue_skip user (itemId item) st))
              = (Playback.skip (now st) (playback st)).1
       else TicketHost.post_queue_skip user (itemId item) st
            = Done (emit [Respond 403 (Text_body CantSkipDuringEventMode)] st)
            ∧ SocketHost.post_queue_skip user (source (media item)) st
              = match connections st !! user with
                | Some socket =>
                    Done (emit [Send socket (MStatus CantSkipDuringEventMode);
                                Respond 202 Empty_body] st)
                | None => Raise TypeError st
                end
            ∧ skips (final (TicketHost.post_queue_skip user (itemId item) st)) = skips st
            ∧ skips (final (SocketHost.post_queue_skip user (source (media item)) st))
              = skips st
            ∧ playback (final (TicketHost.post_queue_skip user (itemId item) st))
              = playback st
            ∧ playback (final (SocketHost.post_queue_skip user (source (media item)) st))
              = playback st
            ∧ TicketHost.tryQueueMedia user m banger st
              = Raise (Error OnlyDjsMayQueueDuringEventMode) st
            ∧ SocketHost.tryQueueMedia user m banger st
              = match connections st !! user with
                | Some socket =>
                    Done (emit [Send socket (MStatus EventModeOnlyDjsMayQueue)] st)
                | None => Raise TypeError st
                end
  else TicketHost.post_queue_skip user (itemId item) st
       = Done (emit [Respond 202 Empty_body] (TicketHost.voteSkip (itemId item) user st))
       ∧ SocketHost.post_queue_skip user (source (media item)) st
         = Done (emit [Respond 202 Empty_body]
                   (SocketHost.voteSkip (source (media item)) user st)).
Proof.
  intros Hcur.
  destruct (eventMode st) eqn:Hmode;
    [destruct (has_tag "dj" user st) eqn:Hdj|].
  - destruct (post_queue_skip_dj user item st Hcur Hmode Hdj) as [HB HA].
    rewrite HB, HA. repeat split. cbn. apply skip_playback.
  - destruct (post_queue_skip_refused user item st Hcur Hmode Hdj) as [HB HA].
    destruct (tryQueueMedia_event_mode user m banger st Hmode Hdj) as [HqB HqA].
    rewrite HB, HA, HqB, HqA.
    repeat split; by destruct (connections st !! user).
  - apply (post_queue_skip_vote user item st Hcur Hmode).
Qed.

(** C4 as stated fails: in event mode alice, who is no dj, asks to skip the
    song that is playing; no vote of hers is recorded. *)
Lemma non_dj_skip_in_event_mode_is_no_vote :
  eventMode (set_eventMode true room) = true
  ∧ has_tag "dj" 1 (set_eventMode true room) = false
  ∧ Playback.currentItem (playback (set_eventMode true room)) = Some (song 0 "a" None 1)
  ∧ TicketHost.post_queue_skip 1 0 (set_eventMode true room)
    = Done (emit [Respond 403 (Text_body CantSkipDuringEventMode)]
              (set_eventMode true room))
  ∧ skips (final (TicketHost.post_queue_skip 1 0 (set_eventMode true room))) = ∅
  ∧ skips (final (SocketHost.post_queue_skip 1 "library:a" (set_eventMode true room))) = ∅
  ∧ log (final (SocketHost.post_queue_skip 1 "library:a" (set_eventMode true room)))
    = [Send 11 (MStatus CantSkipDuringEventMode); Respond 202 Empty_body].
Proof. vm_compute. repeat split. Qed.

(** ** Queueing *)

Lemma find_matching (f : QueueItem → bool) (queued : QueueItem) (q : list QueueItem) :
  queued ∈ q → f queued = true → ∃ first, List.find f q = Some first ∧ first ∈ q.
Proof.
  intros Hin Hf. destruct (List.find f q) as [first|] eqn:Hfind.
  - exists first. split; [done|].
    apply find_some in Hfind as [H _]. by apply list_elem_of_In.
  - apply list_elem_of_In in Hin.
    pose proof (find_none f q Hfind queued Hin) as H. congruence.
Qed.

(** C5. The media [m] has the identity of [queued], an item that is
    pending.  Then an attempt of any user to enqueue [m] is rejected: the
    ticket host raises an error (which its route answers with 400), the
    socket host sends the requester a private status (or fails in the
    attempt to, the requester having no connection).  In each case the
    state the attempt leaves behind is the state before, but for that one
    message: the queue is not modified. *)
Theorem duplicate_media_is_rejected
    (user : nat) (m : Media) (banger : bool) (queued : QueueItem) (st : State) :
  queued ∈ Playback.queue (playback st) →
  source (media queued) = source m →
  (∃ text,
      TicketHost.tryQueueMedia user m banger st = Raise (Error text) st
      ∧ TicketHost.post_queue user m st
        = Done (emit [Respond 400 (Error_body (Error text))] st))
  ∧ (∃ text,
        SocketHost.tryQueueMedia user m banger st
        = match connections st !! user with
          | Some socket => Done (emit [Send socket (MStatus text)] st)
          | None => Raise TypeError st
          end)
  ∧ playback (final (TicketHost.tryQueueMedia user m banger st)) = playback st
  ∧ playback (final (TicketHost.post_queue user m st)) = playback st
  ∧ playback (final (SocketHost.tryQueueMedia user m banger st)) = playback st.
Proof.
  intros Hin Hsame.
  assert (HB : ∃ text, ∀ banger',
             TicketHost.tryQueueMedia user m banger' st = Raise (Error text) st).
  { unfold TicketHost.tryQueueMedia.
    destruct (eventMode st && negb (has_tag "dj" user st)); [by eexists|].
    destruct (find_matching (λ x, String.eqb (source (media x)) (source m))
                queued _ Hin) as (first & -> & _).
    { by apply String.eqb_eq. }
    by eexists. }
  assert (HA : ∃ text,
             SocketHost.tryQueueMedia user m banger st
             = match connections st !! user with
               | Some socket => Done (emit [Send socket (MStatus text)] st)
               | None => Raise TypeError st
               end).
  { unfold SocketHost.tryQueueMedia.
    destruct (eventMode st && negb (has_tag "dj" user st)).
    { eexists. unfold status. by rewrite sendOnly_eq. }
    destruct (find_matching (λ x, mediaEquals (media x) m) queued _ Hin)
      as (first & -> & _).
    { unfold mediaEquals. by apply String.eqb_eq. }
    eexists. unfold status. by rewrite sendOnly_eq. }
  destruct HB as [textB HB], HA as [textA HA].
  assert (HP : TicketHost.post_queue user m st
               = Done (emit [Respond 400 (Error_body (Error textB))] st)).
  { unfold TicketHost.post_queue. by rewrite HB. }
  split; [exists textB; by rewrite HB|].
  split; [by exists textA|].
  rewrite HB, HP, HA.
  repeat split. by destruct (connections st !! user).
Qed.

(** ** The health check of the queue *)

Lemma is_pending_middle (x : QueueItem) (pre l : list QueueItem) :
  Playback.is_pending (itemId x) (pre ++ x :: l) = true.
Proof.
  unfold Playback.is_pending. rewrite existsb_app. cbn.
  rewrite Nat.eqb_refl. by rewrite orb_true_r.
Qed.

Lemma remove_item_middle (x : QueueItem) (pre l : list QueueItem) :
  itemId x ∉ itemId <$> pre →
  Playback.remove_item (itemId x) (pre ++ x :: l) = pre ++ l.
Proof.
  induction pre as [|y pre IH]; cbn; intros Hnotin.
  - by rewrite Nat.eqb_refl.
  - destruct (Nat.eqb (itemId y) (itemId x)) eqn:Heq.
    + apply Nat.eqb_eq in Heq. set_solver.
    + rewrite IH; [done|set_solver].
Qed.

Lemma check_failed (x : QueueItem) (pre l : list QueueItem) (st : State) :
  Playback.queue (playback st) = pre ++ x :: l →
  itemId x ∉ itemId <$> pre →
  TicketHost.check x failed st
  = set_log ((log st ++ broadcast (MUnqueue (itemId x)) st)
             ++ broadcast (MStatus (FailedToLoad (title (media x)))) st)
      (set_playback (with_queue (pre ++ l) (playback st)) st).
Proof.
  intros Hq Hnotin.
  unfold TicketHost.check, playback_unqueue, Playback.unqueue.
  rewrite Hq, is_pending_middle, (remove_item_middle _ _ _ Hnotin).
  reflexivity.
Qed.

Lemma checks_run (probe : nat → MediaStatus) (l : list QueueItem) :
  ∀ (pre : list QueueItem) (st : State),
    Playback.queue (playback st) = pre ++ l →
    NoDup (itemId <$> pre ++ l) →
    foldl (λ s item, TicketHost.check item (TicketHost.getMediaStatus probe (media item)) s)
          st l
    = set_log (log st ++ flat_map (failure_notice probe st) l)
        (set_playback
           (with_queue (pre ++ List.filter (λ item, negb (failing probe item)) l)
                       (playback st)) st).
Proof.
  induction l as [|x l IH]; intros pre st Hq Hnodup.
  - cbn. rewrite !app_nil_r. rewrite <- (app_nil_r pre), <- Hq.
    open_state st. by destruct p.
  - cbn [foldl]. unfold failure_notice at 1, failing at 1. cbn [flat_map List.filter].
    unfold failing at 1.
    assert (Hx : itemId x ∉ itemId <$> pre).
    { rewrite fmap_app in Hnodup. apply NoDup_app in Hnodup as (_ & Hdisj & _).
      intros Hin. apply (Hdisj _ Hin). set_solver. }
    assert (Hrest : NoDup (itemId <$> pre ++ l)).
    { rewrite fmap_app in *. apply NoDup_app in Hnodup as (H1 & H2 & H3).
      apply NoDup_app. split; [done|]. split.
      - intros y Hy. specialize (H2 y Hy). set_solver.
      - cbn in H3. by apply NoDup_cons in H3 as [_ H3]. }
    destruct (TicketHost.getMediaStatus probe (media x)) eqn:Hstatus.
    + change (TicketHost.check x available st) with st.
      rewrite (IH (pre ++ [x]) st); rewrite <- ?app_assoc; try done.
    + change (TicketHost.check x pending st) with st.
      rewrite (IH (pre ++ [x]) st); rewrite <- ?app_assoc; try done.
    + rewrite (check_failed x pre l st Hq Hx).
      rewrite (IH pre); [|done|done].
      unfold failure_notice, broadcast. cbn. setters.
      by rewrite <- !app_assoc.
Qed.

(** Whatever the ids in the queue, a run of the health check leaves the
    playing item, its clock and the votes alone. *)
Lemma check_frame (item : QueueItem) (status : MediaStatus) (st : State) :
  Playback.currentItem (playback (TicketHost.check item status st))
  = Playback.currentItem (playback st)
  ∧ Playback.startTimestamp (playback (TicketHost.check item status st))
    = Playback.startTimestamp (playback st)
  ∧ skips (TicketHost.check item status st) = skips st.
Proof.
  destruct status; try done.
  unfold TicketHost.check, playback_unqueue, Playback.unqueue.
  by destruct (Playback.is_pending (itemId item) (Playback.queue (playback st))).
Qed.

Lemma checkQueue_frame (probe : nat → MediaStatus) (st : State) :
  Playback.currentItem (playback (TicketHost.checkQueue probe st))
  = Playback.currentItem (playback st)
  ∧ Playback.startTimestamp (playback (TicketHost.checkQueue probe st))
    = Playback.startTimestamp (playback st)
  ∧ skips (TicketHost.checkQueue probe st) = skips st.
Proof.
  unfold TicketHost.checkQueue.
  generalize (Playback.queue (playback st)) as l. intros l. revert st.
  induction l as [|x l IH]; intros st; [done|].
  cbn [foldl].
  destruct (IH (TicketHost.check x (TicketHost.getMediaStatus probe (media x)) st))
    as (-> & -> & ->).
  apply check_frame.
Qed.

(** C6, as the code has it.  A run of the health check, the items of the
    queue having distinct ids.  Every pending item whose probe reports
    [failed] is removed from the queue, the others stay, in order.  The
    removal is not silent: each one is announced to every connection by an
    [unqueue] message and by the status "failed to load".  Current
    playback is not affected: the playing item and the start of its clock
    are what they were, so nothing is skipped, and the vote set is
    untouched; nothing else changes either. *)
Theorem health_check_drops_failed_items_only
    (probe : nat → MediaStatus) (st : State) :
  NoDup (itemId <$> Playback.queue (playback st)) →
  TicketHost.checkQueue probe st
  = set_log (log st ++ flat_map (failure_notice probe st) (Playback.queue (playback st)))
      (set_playback
         (with_queue (List.filter (λ item, negb (failing probe item))
                                  (Playback.queue (playback st)))
                     (playback st)) st)
  ∧ Playback.currentItem (playback (TicketHost.checkQueue probe st))
    = Playback.currentItem (playback st)
  ∧ Playback.startTimestamp (playback (TicketHost.checkQueue probe st))
    = Playback.startTimestamp (playback st)
  ∧ skips (TicketHost.checkQueue probe st) = skips st
  ∧ Playback.queue (playback (TicketHost.checkQueue probe st))
    = List.filter (λ item, negb (failing probe item)) (Playback.queue (playback st))
  ∧ log (TicketHost.checkQueue probe st)
    = log st ++ flat_map (failure_notice probe st) (Playback.queue (playback st)).
Proof.
  intros Hnodup.
  assert (H : TicketHost.checkQueue probe st
              = set_log (log st ++ flat_map (failure_notice probe st)
                                            (Playback.queue (playback st)))
                  (set_playback
                     (with_queue (List.filter (λ item, negb (failing probe item))
                                              (Playback.queue (playback st)))
                                 (playback st)) st)).
  { unfold TicketHost.checkQueue.
    by rewrite (checks_run probe (Playback.queue (playback st)) [] st). }
  split; [exact H|]. rewrite H. repeat split.
Qed.

(** C6 as stated fails on "silently": bob's pending song fails its probe
    while alice's song plays; the health check removes it and tells both
    connections, twice. *)
Lemma health_check_is_not_silent :
  Playback.queue (playback room_with_pending) = [song 1 "b" (Some 0%nat) 2]
  ∧ Playback.queue (playback (TicketHost.checkQueue all_failed room_with_pending)) = []
  ∧ Playback.currentItem (playback (TicketHost.checkQueue all_failed room_with_pending))
    = Some (song 0 "a" None 1)
  ∧ log room_with_pending = []
  ∧ log (TicketHost.checkQueue all_failed room_with_pending)
    = [Send 12 (MUnqueue 1); Send 11 (MUnqueue 1);
       Send 12 (MStatus (FailedToLoad "b")); Send 11 (MStatus (FailedToLoad "b"))].
Proof. vm_compute. repeat split. Qed.

(** ** Echoes *)

Lemma length_substring_0 (n : nat) (s : string) :
  String.length (substring 0 n s) = Nat.min n (String.length s).
Proof.
  revert s. induction n as [|n IH]; intros [|a s]; cbn; try reflexivity.
  by rewrite IH.
Qed.

Lemma substring_0_short (n : nat) (s : string) :
  (String.length s ≤ n)%nat → substring 0 n s = s.
Proof.
  revert s. induction n as [|n IH]; intros [|a s]; cbn; intros H;
    try reflexivity; try lia.
  rewrite IH; [done|lia].
Qed.

Lemma put_echo_echoes (user : nat) (pos : list Z) (text : string) (st : State) :
  echoes (put_echo user pos text st)
  = if String.eqb text ""
    then delete pos (echoes st)
    else <[pos := make_echo user pos text st]> (echoes st).
Proof.
  unfold put_echo. by destruct text.
Qed.

Lemma put_echo_heap (user : nat) (pos : list Z) (text : string) (st : State) :
  heap (put_echo user pos text st) = heap st.
Proof.
  unfold put_echo. by destruct text.
Qed.

(** C8. A user submits [text] at [pos].  If the echo at [pos] shows the
    admin tag (its author holds it) and the user does not, the submission
    is refused (403, or a private status) and the echoes are as before.
    Otherwise an empty text deletes the echo at [pos], if any, and a
    non-empty text stores at [pos] an echo of the user whose text is the
    first 512 characters of [text]; the tags the new echo shows are those
    of its author. *)
Theorem echo_submission (user : nat) (text : string) (pos : list Z) (st : State) :
  (if echo_is_admin pos st && negb (has_tag "admin" user st)
   then TicketHost.post_echoes user text pos st
        = emit [Respond 403 (Text_body CantRemoveAdminEcho)] st
        ∧ SocketHost.echo_handler user text pos st
          = match connections st !! user with
            | Some socket => Done (emit [Send socket (MStatus CantRemoveAdminEcho)] st)
            | None => Raise TypeError st
            end
        ∧ echoes (TicketHost.post_echoes user text pos st) = echoes st
        ∧ echoes (final (SocketHost.echo_handler user text pos st)) = echoes st
   else SocketHost.echo_handler user text pos st = Done (put_echo user pos text st)
        ∧ TicketHost.post_echoes user text pos st
          = emit [Respond 201 Empty_body] (put_echo user pos text st)
        ∧ if String.eqb text ""
          then echoes (put_echo user pos text st) = delete pos (echoes st)
               ∧ echoes (put_echo user pos text st) !! pos = None
               ∧ log (put_echo user pos text st)
                 = log st ++ broadcast (MEchoesRemoved [pos]) st
          else echoes (put_echo user pos text st)
               = <[pos := make_echo user pos text st]> (echoes st)
               ∧ echoes (put_echo user pos text st) !! pos
                 = Some (make_echo user pos text st)
               ∧ echo_userId (make_echo user pos text st) = user
               ∧ echo_text (make_echo user pos text st) = substring 0 512 text
               ∧ String.length (echo_text (make_echo user pos text st))
                 = Nat.min 512 (String.length text)
               ∧ echo_is_admin pos (put_echo user pos text st)
                 = has_tag "admin" user st
               ∧ log (put_echo user pos text st)
                 = log st ++ broadcast (MEchoesAdded [make_echo user pos text st]) st)
  ∧ echo_is_admin pos st
    = match echoes st !! pos with
      | Some e => includes "admin" (tags_of_echo e st)
      | None => false
      end.
Proof.
  split; [|reflexivity].
  unfold TicketHost.post_echoes, SocketHost.echo_handler.
  destruct (echo_is_admin pos st && negb (has_tag "admin" user st)) eqn:Hrefuse.
  - assert (Hv : negb (negb (echo_is_admin pos st) || has_tag "admin" user st) = true).
    { destruct (echo_is_admin pos st), (has_tag "admin" user st); done. }
    rewrite Hv. unfold status. rewrite sendOnly_eq.
    repeat split. by destruct (connections st !! user).
  - assert (Hv : negb (negb (echo_is_admin pos st) || has_tag "admin" user st) = false).
    { destruct (echo_is_admin pos st), (has_tag "admin" user st); done. }
    rewrite Hv. split; [done|]. split; [done|].
    rewrite put_echo_echoes.
    destruct (String.eqb text "") eqn:Htext.
    + rewrite lookup_delete_eq. repeat split.
      apply String.eqb_eq in Htext as ->. reflexivity.
    + rewrite lookup_insert_eq. repeat split.
      * apply length_substring_0.
      * unfold echo_is_admin. rewrite put_echo_echoes, Htext, lookup_insert_eq.
        unfold tags_of_echo, has_tag, tags_of. cbn. by rewrite put_echo_heap.
      * unfold put_echo. destruct text; [done|]. reflexivity.
Qed.

(** ** Bans *)

(** C9. A socket arrives from a banned address.  The socket host answers
    with a reject message and closes the socket, and installs no listener
    on it: whatever [join] message the socket sends afterwards, resume
    token or not, is not heard, and the state stays what it was but for the
    two lines of output.  In the ticket host the ban check stands before
    every route: the request is answered with 403 and neither the route
    that hands out tickets nor the one that opens the zone socket runs. *)
Theorem banned_address_is_refused
    (websocket : nat) (userIp : string) (message : JoinMessage)
    (fresh id n a : string) (next : State → Res) (st : State) :
  is_Some (bans st !! userIp) →
  listeners st !! websocket = None →
  SocketHost.waitJoin websocket userIp st
  = emit [Send websocket (MReject YouAreBanned); Close websocket 4001] st
  ∧ listeners (SocketHost.waitJoin websocket userIp st) !! websocket = None
  ∧ SocketHost.on_join websocket message fresh (SocketHost.waitJoin websocket userIp st)
    = Done (SocketHost.waitJoin websocket userIp st)
  ∧ TicketHost.requireNotBanned userIp next st
    = Done (emit [Respond 403 (Text_body YouAreBanned)] st)
  ∧ TicketHost.post_zone_join userIp n a fresh st
    = Done (emit [Respond 403 (Text_body YouAreBanned)] st)
  ∧ TicketHost.ws_zone_ticket websocket userIp id fresh st
    = Done (emit [Respond 403 (Text_body YouAreBanned)] st).
Proof.
  intros Hbanned Hnew.
  assert (Hwait : SocketHost.waitJoin websocket userIp st
                  = emit [Send websocket (MReject YouAreBanned); Close websocket 4001] st).
  { unfold SocketHost.waitJoin. by rewrite (bool_decide_eq_true_2 _ Hbanned). }
  assert (Hban : ∀ k, TicketHost.requireNotBanned userIp k st
                      = Done (emit [Respond 403 (Text_body YouAreBanned)] st)).
  { intros k. unfold TicketHost.requireNotBanned.
    by rewrite (bool_decide_eq_true_2 _ Hbanned). }
  split; [exact Hwait|]. rewrite Hwait.
  split; [exact Hnew|].
  split; [|split; [apply Hban|split; apply Hban]].
  unfold SocketHost.on_join.
  change (listeners (emit [Send websocket (MReject YouAreBanned); Close websocket 4001] st))
    with (listeners st).
  by rewrite Hnew.
Qed.

(** ** Joining and resuming *)

Lemma sendOnly_connected (m : Msg) (user socket : nat) (st : State) :
  connections st !! user = Some socket →
  sendOnly m user st = Done (emit [Send socket m] st).
Proof. intros H. by rewrite sendOnly_eq, H. Qed.

Lemma sendCoreState_connected (user socket : nat) (st : State) :
  connections st !! user = Some socket →
  sendCoreState user st = Done (emit (core_state socket st) st).
Proof.
  intros H. unfold sendCoreState, sendCurrent, core_state, current_play.
  rewrite (sendOnly_connected _ _ _ _ H). cbn [andThen].
  rewrite (sendOnly_connected _ user socket (emit _ st) H). cbn [andThen].
  destruct (Playback.currentItem (playback st)) eqn:Hcur.
  - change (Playback.currentItem (playback (emit [Send socket (MQueue (Playback.queue (playback st)))]
              (emit [Send socket (MUsers (roster st))] st))))
      with (Playback.currentItem (playback st)).
    rewrite Hcur.
    rewrite (sendOnly_connected _ user socket (emit _ (emit _ st)) H).
    unfold emit. setters. by rewrite <- !app_assoc.
  - change (Playback.currentItem (playback (emit [Send socket (MQueue (Playback.queue (playback st)))]
              (emit [Send socket (MUsers (roster st))] st))))
      with (Playback.currentItem (playback st)).
    rewrite Hcur.
    rewrite (sendOnly_connected _ user socket (emit _ (emit _ st)) H).
    unfold emit. setters. by rewrite <- !app_assoc.
Qed.

Lemma attach_connections (websocket : nat) (userIp : string) (message : JoinMessage)
    (user : nat) (token : string) (st : State) :
  connections (SocketHost.attach websocket userIp message user token st) !! user
  = Some websocket.
Proof.
  unfold SocketHost.attach. cbn. apply lookup_insert_eq.
Qed.

Lemma bind_user_eq (websocket : nat) (userIp : string) (message : JoinMessage)
    (resumed : bool) (user : nat) (token : string) (st : State) :
  SocketHost.bind_user websocket userIp message resumed user token st
  = Done (joined_state resumed websocket userIp message user token st).
Proof.
  pose proof (attach_connections websocket userIp message user token st) as H.
  unfold SocketHost.bind_user, joined_state.
  rewrite (sendCoreState_connected _ _ _ H). cbn [andThen].
  rewrite (sendOnly_connected _ user websocket
             (emit _ (SocketHost.attach websocket userIp message user token st)) H).
  cbn [andThen].
  unfold sendOtherState, other_state, core_state, current_play, roster, sendAll_user,
    sendAll, broadcast, sendOnly, emit, SocketHost.attach, set_name, addUserToken,
    addConnectionToUser.
  open_state st.
  destruct resumed; cbn;
    [|destruct (alter (rename (join_name message)) user h !! user)];
    setters; rewrite H; cbn; rewrite <- ?app_assoc; reflexivity.
Qed.

Lemma resume_Some (message : JoinMessage) (token : string) (st : State) :
  SocketHost.resume message st = Some token
  ↔ join_token message = Some token
    ∧ truthy token = true
    ∧ is_Some (tokenToUser st !! token).
Proof.
  unfold SocketHost.resume.
  destruct (join_token message) as [t|]; [|naive_solver].
  destruct (truthy t) eqn:Ht; cbn.
  - case_bool_decide as Hk; [naive_solver|].
    split; [done|]. intros (? & ? & ?). by simplify_eq.
  - split; [done|]. intros (? & ? & ?). simplify_eq. congruence.
Qed.

Lemma resume_authorised (message : JoinMessage) (token : string) (st : State) :
  SocketHost.resume message st = Some token → SocketHost.authorised message st = true.
Proof.
  intros H. unfold SocketHost.authorised. rewrite H.
  by rewrite bool_decide_eq_true_2.
Qed.

Lemma on_join_resume (websocket user : nat) (userIp token fresh : string)
    (message : JoinMessage) (st : State) :
  listeners st !! websocket = Some (AwaitingJoin userIp) →
  SocketHost.resume message st = Some token →
  tokenToUser st !! token = Some user →
  SocketHost.on_join websocket message fresh st
  = SocketHost.bind_user websocket userIp message true user token (heard websocket st).
Proof.
  intros Hl Hres Htok. unfold SocketHost.on_join. rewrite Hl.
  unfold SocketHost.join_callback.
  change (SocketHost.authorised message (heard websocket st))
    with (SocketHost.authorised message st).
  change (SocketHost.resume message (heard websocket st))
    with (SocketHost.resume message st).
  change (tokenToUser (heard websocket st)) with (tokenToUser st).
  by rewrite (resume_authorised _ _ _ Hres), Hres, Htok.
Qed.

Lemma on_join_new (websocket : nat) (userIp fresh : string)
    (message : JoinMessage) (st : State) :
  listeners st !! websocket = Some (AwaitingJoin userIp) →
  SocketHost.resume message st = None →
  SocketHost.on_join websocket message fresh st
  = if SocketHost.authorised message st
    then SocketHost.bind_user websocket userIp message false (S (lastUserId st)) fresh
           (getUser (S (lastUserId st))
              (set_lastUserId (S (lastUserId st)) (heard websocket st)))
    else Done (emit [Send websocket (MReject PasswordRequired); Close websocket 4000]
                 (heard websocket st)).
Proof.
  intros Hl Hres. unfold SocketHost.on_join. rewrite Hl.
  unfold SocketHost.join_callback.
  change (SocketHost.authorised message (heard websocket st))
    with (SocketHost.authorised message st).
  change (SocketHost.resume message (heard websocket st))
    with (SocketHost.resume message st).
  rewrite Hres. by destruct (SocketHost.authorised message st).
Qed.

Lemma getUser_registers (id : nat) (st : State) :
  id ∈ users (getUser id st).
Proof.
  unfold getUser. case_bool_decide; [done|]. cbn. set_solver.
Qed.

Lemma joined_state_tables (resumed : bool) (websocket : nat) (userIp : string)
    (message : JoinMessage) (user : nat) (token : string) (st : State) :
  listeners (joined_state resumed websocket userIp message user token st)
  = <[websocket := Joined user]> (listeners st)
  ∧ connections (joined_state resumed websocket userIp message user token st)
    = <[user := websocket]> (connections st)
  ∧ userToConnections (joined_state resumed websocket userIp message user token st)
    = <[user := default ∅ (userToConnections st !! user) ∪ {[websocket]}]>
        (userToConnections st)
  ∧ tokenToUser (joined_state resumed websocket userIp message user token st)
    = <[token := user]> (tokenToUser st)
  ∧ userToToken (joined_state resumed websocket userIp message user token st)
    = <[user := token]> (userToToken st)
  ∧ users (joined_state resumed websocket userIp message user token st) = users st
  ∧ lastUserId (joined_state resumed websocket userIp message user token st)
    = lastUserId st
  ∧ heap (joined_state resumed websocket userIp message user token st)
    = alter (rename (join_name message)) user (heap st).
Proof.
  unfold joined_state, sendAll_user.
  destruct resumed; [by repeat split|].
  match goal with |- context [match ?x with _ => _ end] => destruct x end;
    by repeat split.
Qed.

Lemma joined_state_frame (resumed : bool) (websocket : nat) (userIp : string)
    (message : JoinMessage) (user : nat) (token : string) (st : State) :
  playback (joined_state resumed websocket userIp message user token st) = playback st
  ∧ skips (joined_state resumed websocket userIp message user token st) = skips st
  ∧ echoes (joined_state resumed websocket userIp message user token st) = echoes st
  ∧ timers (joined_state resumed websocket userIp message user token st) = timers st.
Proof.
  unfold joined_state, sendAll_user.
  destruct resumed; [by repeat split|].
  match goal with |- context [match ?x with _ => _ end] => destruct x end;
    by repeat split.
Qed.

Lemma joined_state_log_resumed (websocket : nat) (userIp : string)
    (message : JoinMessage) (user : nat) (token : string) (st : State) :
  log (joined_state true websocket userIp message user token st)
  = log st
    ++ core_state websocket (joined_state true websocket userIp message user token st)
    ++ [Send websocket (MAssign user token)]
    ++ other_state websocket (joined_state true websocket userIp message user token st).
Proof.
  change (log (joined_state true websocket userIp message user token st))
    with ((log st
           ++ (core_state websocket
                 (joined_state true websocket userIp message user token st)
               ++ [Send websocket (MAssign user token)]))
          ++ other_state websocket
               (joined_state true websocket userIp message user token st)).
  by rewrite <- !app_assoc.
Qed.

Lemma joined_state_log_new (websocket : nat) (userIp : string)
    (message : JoinMessage) (user : nat) (token : string) (st : State) :
  log (joined_state false websocket userIp message user token st)
  = log st
    ++ core_state websocket (joined_state false websocket userIp message user token st)
    ++ [Send websocket (MAssign user token)]
    ++ match heap (joined_state false websocket userIp message user token st) !! user with
       | Some u =>
           broadcast (MUser u) (joined_state false websocket userIp message user token st)
       | None => []
       end
    ++ other_state websocket (joined_state false websocket userIp message user token st).
Proof.
  destruct (joined_state_tables false websocket userIp message user token st)
    as (_ & _ & _ & _ & _ & _ & _ & Hh).
  rewrite Hh.
  unfold joined_state, sendAll_user, sendAll, other_state, core_state, current_play,
    roster, broadcast.
  change (heap (emit _ (SocketHost.attach websocket userIp message user token st)))
    with (alter (rename (join_name message)) user (heap st)).
  destruct (alter (rename (join_name message)) user (heap st) !! user);
    cbn [id log emit]; unfold emit; cbn; by rewrite <- ?app_assoc.
Qed.

(** C3, as the code has it.  A [join] message arrives on a socket that
    waits for one.  If its token resumes (it is non-empty and known, which
    is all that is asked: the password is not looked at), the socket is
    bound to the user the token maps to: same user id, no id allocated, the
    registry unchanged, and the user's record kept (tags, position, avatar,
    emotes) but for its name, which is set to the name of the message; all
    that is sent goes to the new socket alone, so nothing like [join] or
    [leave] is broadcast; queue, votes, echoes and pending timers are
    untouched.  If no token resumes and the join is authorised, the next id
    of the counter is allocated to a new user, who is announced to every
    connection; if it is not authorised the socket is rejected and
    closed. *)
Theorem resume_binds_socket_to_existing_user
    (websocket : nat) (userIp fresh : string) (message : JoinMessage) (st : State) :
  listeners st !! websocket = Some (AwaitingJoin userIp) →
  match SocketHost.resume message st with
  | Some token =>
      join_token message = Some token
      ∧ ∃ user st',
          tokenToUser st !! token = Some user
          ∧ SocketHost.on_join websocket message fresh st = Done st'
          ∧ listeners st' !! websocket = Some (Joined user)
          ∧ connections st' !! user = Some websocket
          ∧ websocket ∈ default ∅ (userToConnections st' !! user)
          ∧ tokenToUser st' = tokenToUser st
          ∧ userToToken st' !! user = Some token
          ∧ users st' = users st
          ∧ lastUserId st' = lastUserId st
          ∧ heap st' = alter (rename (join_name message)) user (heap st)
          ∧ tags <$> heap st' !! user = tags <$> heap st !! user
          ∧ position <$> heap st' !! user = position <$> heap st !! user
          ∧ avatar <$> heap st' !! user = avatar <$> heap st !! user
          ∧ emotes <$> heap st' !! user = emotes <$> heap st !! user
          ∧ userId <$> heap st' !! user = userId <$> heap st !! user
          ∧ name <$> heap st' !! user
            = (λ _, Some (join_name message)) <$> heap st !! user
          ∧ playback st' = playback st
          ∧ skips st' = skips st
          ∧ echoes st' = echoes st
          ∧ timers st' = timers st
          ∧ log st'
            = log st ++ core_state websocket st'
                     ++ [Send websocket (MAssign user token)]
                     ++ other_state websocket st'
  | None =>
      if SocketHost.authorised message st
      then ∃ st',
          SocketHost.on_join websocket message fresh st = Done st'
          ∧ lastUserId st' = S (lastUserId st)
          ∧ S (lastUserId st) ∈ users st'
          ∧ listeners st' !! websocket = Some (Joined (S (lastUserId st)))
          ∧ connections st' !! S (lastUserId st) = Some websocket
          ∧ tokenToUser st' !! fresh = Some (S (lastUserId st))
          ∧ log st'
            = log st ++ core_state websocket st'
                     ++ [Send websocket (MAssign (S (lastUserId st)) fresh)]
                     ++ match heap st' !! S (lastUserId st) with
                        | Some u => broadcast (MUser u) st'
                        | None => []
                        end
                     ++ other_state websocket st'
      else SocketHost.on_join websocket message fresh st
           = Done (emit [Send websocket (MReject PasswordRequired); Close websocket 4000]
                     (heard websocket st))
  end.
Proof.
  intros Hl.
  destruct (SocketHost.resume message st) as [token|] eqn:Hres.
  - apply resume_Some in Hres as Hparts. destruct Hparts as (Htoken & _ & [user Huser]).
    split; [done|].
    exists user, (joined_state true websocket userIp message user token (heard websocket st)).
    split; [done|].
    split; [by rewrite (on_join_resume _ _ _ _ _ _ _ Hl Hres Huser), bind_user_eq|].
    pose proof (joined_state_tables true websocket userIp message user token
                  (heard websocket st))
      as (Hls & Hc & Huc & Htu & Hut & Hu & Hid & Hh).
    pose proof (joined_state_frame true websocket userIp message user token
                  (heard websocket st)) as (Hp & Hs & He & Ht).
    rewrite Hls, Hc, Huc, Htu, Hut, Hu, Hid, Hh, Hp, Hs, He, Ht, joined_state_log_resumed.
    rewrite !lookup_insert_eq, !lookup_alter_eq, <- !option_fmap_compose.
    repeat split; try reflexivity.
    + cbn. set_solver.
    + by apply insert_id.
  - rewrite (on_join_new _ _ _ _ _ Hl Hres).
    destruct (SocketHost.authorised message st); [|done].
    eexists. split; [apply bind_user_eq|].
    pose proof (joined_state_tables false websocket userIp message (S (lastUserId st)) fresh
                  (getUser (S (lastUserId st))
                     (set_lastUserId (S (lastUserId st)) (heard websocket st))))
      as (Hls & Hc & _ & Htu & _ & Hu & Hid & _).
    rewrite Hls, Hc, Htu, Hu, Hid, joined_state_log_new, !lookup_insert_eq.
    repeat split; try reflexivity; try apply getUser_registers.
    all: unfold getUser; by case_bool_decide.
Qed.

(** C3 as stated fails on "the same state": alice's token is presented with
    another name; the session is resumed, no id is allocated, and the name
    of user 1 is no longer what it was. *)
Lemma resume_overwrites_the_name :
  tokenToUser room_with_arrival !! "token-of-alice" = Some 1%nat
  ∧ heap room_with_arrival !! 1%nat = Some alice
  ∧ (∃ st', SocketHost.on_join 13 resume_renamed "fresh-token" room_with_arrival = Done st'
            ∧ listeners st' !! 13%nat = Some (Joined 1)
            ∧ lastUserId st' = lastUserId room_with_arrival
            ∧ heap st' !! 1%nat = Some (rename "alicia" alice)
            ∧ heap st' !! 1%nat ≠ heap room_with_arrival !! 1%nat).
Proof.
  split; [reflexivity|]. split; [reflexivity|].
  eexists. split; [vm_compute; reflexivity|].
  vm_compute. repeat split. discriminate.
Qed.

(** ** The theorems at work in the small zone *)

Lemma vote_skip_at_threshold_witness :
  Playback.currentItem (playback room) = Some (song 0 "a" None 1)
  ∧ TicketHost.voteSkip 0 1 room = SocketHost.voteSkip "library:a" 1 room
  ∧ playback (TicketHost.voteSkip 0 1 room) = playback room
  ∧ skips (TicketHost.voteSkip 0 1 room) = {[ 1%nat ]} ∪ skips room.
Proof.
  assert (Hcur : Playback.currentItem (playback room) = Some (song 0 "a" None 1))
    by reflexivity.
  split; [exact Hcur|].
  destruct (vote_skip_at_threshold 1 (song 0 "a" None 1) room Hcur)
    as (Hsame & _ & _ & Hvote & _).
  split; [exact Hsame|].
  assert (Hbelow : at_least (size ({[ 1%nat ]} ∪ skips room)) (skip_target room) = false)
    by (vm_compute; reflexivity).
  rewrite Hbelow in Hvote. destruct Hvote as (Hp & Hs & _).
  split; [exact Hp|exact Hs].
Defined.

Lemma close_removes_or_starts_grace_period_witness :
  listeners room !! 11%nat = Some (Joined 1)
  ∧ users (on_close 11 1006 room) = users room
  ∧ timers (on_close 11 1006 room) = timers room ++ [1%nat]
  ∧ on_timeout 0 (on_close 11 1006 room) = on_close 11 1000 room
  ∧ (1%nat ∉ users (on_timeout 0 (on_close 11 1006 room))).
Proof.
  assert (H1 : listeners room !! 11%nat = Some (Joined 1)) by (vm_compute; reflexivity).
  split; [exact H1|].
  destruct (close_removes_or_starts_grace_period 11 1006 1 room H1) as (Hclose & _).
  assert (Honly : bool_decide (default ∅ (userToConnections room !! 1%nat) ∖ {[ 11%nat ]}
                               = (∅ : gset nat)) = true)
    by (vm_compute; reflexivity).
  cbn [Nat.eqb orb] in Hclose. rewrite Honly in Hclose.
  destruct Hclose as (Hu & _ & _ & _ & _ & _ & Ht & Hfired & (Hgone & _) & _).
  split; [exact Hu|]. split; [exact Ht|]. split; [exact Hfired | exact Hgone].
Defined.

Lemma resume_binds_socket_to_existing_user_witness :
  listeners room_with_arrival !! 13%nat = Some (AwaitingJoin "10.0.0.1")
  ∧ SocketHost.resume resume_renamed room_with_arrival = Some "token-of-alice"
  ∧ ∃ st', SocketHost.on_join 13 resume_renamed "fresh-token" room_with_arrival = Done st'
           ∧ listeners st' !! 13%nat = Some (Joined 1)
           ∧ users st' = users room_with_arrival.
Proof.
  assert (Hl : listeners room_with_arrival !! 13%nat = Some (AwaitingJoin "10.0.0.1"))
    by (vm_compute; reflexivity).
  assert (Hres : SocketHost.resume resume_renamed room_with_arrival
                 = Some "token-of-alice") by (vm_compute; reflexivity).
  split; [exact Hl|]. split; [exact Hres|].
  pose proof (resume_binds_socket_to_existing_user 13 "10.0.0.1" "fresh-token"
                resume_renamed room_with_arrival Hl) as H.
  rewrite Hres in H.
  destruct H as (_ & user & st' & Huser & Hjoin & Hbound & _ & _ & _ & _ & Husers & _).
  assert (Hone : user = 1%nat).
  { vm_compute in Huser. by injection Huser. }
  subst user. exists st'. split; [exact Hjoin|]. split; [exact Hbound|exact Husers].
Defined.

Lemma event_mode_reserves_queue_and_skip_for_djs_witness :
  Playback.currentItem (playback (set_eventMode true room)) = Some (song 0 "a" None 1)
  ∧ TicketHost.post_queue_skip 1 0 (set_eventMode true room)
    = Done (emit [Respond 403 (Text_body CantSkipDuringEventMode)]
              (set_eventMode true room)).
Proof.
  assert (Hcur : Playback.currentItem (playback (set_eventMode true room))
                 = Some (song 0 "a" None 1)) by reflexivity.
  split; [exact Hcur|].
  pose proof (event_mode_reserves_queue_and_skip_for_djs 1 (song 0 "a" None 1)
                (media (song 2 "c" None 1)) false (set_eventMode true room) Hcur) as H.
  assert (Hdj : has_tag "dj" 1 (set_eventMode true room) = false)
    by (vm_compute; reflexivity).
  change (eventMode (set_eventMode true room)) with true in H.
  rewrite Hdj in H. exact (proj1 H).
Defined.

Lemma duplicate_media_is_rejected_witness :
  song 1 "b" (Some 0%nat) 2 ∈ Playback.queue (playback room_with_pending)
  ∧ source (media (song 1 "b" (Some 0%nat) 2)) = source (media (song 5 "b" None 1))
  ∧ playback (final (TicketHost.tryQueueMedia 1 (media (song 5 "b" None 1)) false
                       room_with_pending))
    = playback room_with_pending.
Proof.
  assert (Hin : song 1 "b" (Some 0%nat) 2 ∈ Playback.queue (playback room_with_pending))
    by (apply list_elem_of_In; left; reflexivity).
  assert (Hsame : source (media (song 1 "b" (Some 0%nat) 2))
                  = source (media (song 5 "b" None 1))) by reflexivity.
  split; [exact Hin|]. split; [exact Hsame|].
  exact (proj1 (proj2 (proj2 (duplicate_media_is_rejected 1 (media (song 5 "b" None 1))
                                false (song 1 "b" (Some 0%nat) 2) room_with_pending
                                Hin Hsame)))).
Defined.

Lemma health_check_drops_failed_items_only_witness :
  NoDup (itemId <$> Playback.queue (playback room_with_pending))
  ∧ Playback.currentItem (playback (TicketHost.checkQueue all_failed room_with_pending))
    = Playback.currentItem (playback room_with_pending).
Proof.
  assert (Hnodup : NoDup (itemId <$> Playback.queue (playback room_with_pending)))
    by (apply (bool_decide_unpack _); vm_compute; exact I).
  split; [exact Hnodup|].
  exact (proj1 (proj2 (health_check_drops_failed_items_only all_failed
                         room_with_pending Hnodup))).
Defined.

Lemma banned_address_is_refused_witness :
  is_Some (bans room_with_ban !! "10.0.0.1")
  ∧ listeners room_with_ban !! 13%nat = None
  ∧ SocketHost.on_join 13 resume_renamed "fresh-token"
      (SocketHost.waitJoin 13 "10.0.0.1" room_with_ban)
    = Done (SocketHost.waitJoin 13 "10.0.0.1" room_with_ban).
Proof.
  assert (Hban : is_Some (bans room_with_ban !! "10.0.0.1"))
    by (eexists; vm_compute; reflexivity).
  assert (Hnew : listeners room_with_ban !! 13%nat = None) by (vm_compute; reflexivity).
  split; [exact Hban|]. split; [exact Hnew|].
  exact (proj1 (proj2 (proj2 (banned_address_is_refused 13 "10.0.0.1" resume_renamed
                                "fresh-token" "some-ticket" "alice" "" (λ s, Done s)
                                room_with_ban Hban Hnew)))).
Defined.


(** ** Scenarios *)

(** Nothing is playing and nothing is queued; a song is queued: [queue]
    then [play] are emitted and it plays; it is skipped: the zone stops,
    the queue is still empty, and no vote having been cast the vote set is
    empty. *)
Example queue_then_skip_when_idle :
  log (playback_queueMedia (media (song 7 "c" None 1))
         {| info_userId := Some 1%nat; info_ip := Some "10.0.0.1"; info_banger := false |}
         idle_room)
  = [Send 12 (MQueue [song 0 "c" None 1]); Send 11 (MQueue [song 0 "c" None 1]);
     Send 12 (MPlay (Some (song 0 "c" None 1, -1000)));
     Send 11 (MPlay (Some (song 0 "c" None 1, -1000)))]
  ∧ Playback.currentItem
      (playback (playback_queueMedia (media (song 7 "c" None 1))
                   {| info_userId := Some 1%nat; info_ip := Some "10.0.0.1";
                      info_banger := false |} idle_room))
    = Some (song 0 "c" None 1)
  ∧ Playback.queue
      (playback (skip None
                   (playback_queueMedia (media (song 7 "c" None 1))
                      {| info_userId := Some 1%nat; info_ip := Some "10.0.0.1";
                         info_banger := false |} idle_room)))
    = []
  ∧ skips (skip None
             (playback_queueMedia (media (song 7 "c" None 1))
                {| info_userId := Some 1%nat; info_ip := Some "10.0.0.1";
                   info_banger := false |} idle_room))
    = ∅.
Proof. vm_compute. repeat split. Qed.

(** Alice's socket drops; the timer is pending.  If it fires now, alice is
    removed and bob is told.  If alice returns on another socket first, the
    timer changes nothing. *)
Example grace_period :
  timers room_after_drop = [1%nat]
  ∧ users room_after_drop = {[ 1%nat; 2%nat ]}
  ∧ users (on_timeout 0 room_after_drop) = {[ 2%nat ]}
  ∧ log (on_timeout 0 room_after_drop) = [Send 12 (MLeave 1); Send 11 (MLeave 1)]
  ∧ users (on_timeout 0 room_after_return) = {[ 1%nat; 2%nat ]}
  ∧ connections (on_timeout 0 room_after_return) !! 1%nat = Some 13%nat
  ∧ log (on_timeout 0 room_after_return) = log room_after_return.
Proof. vm_compute. repeat split. Qed.

(** A channel that is bound to the user when the timer fires keeps the
    user; a resumed [join] binds one. *)
Lemma rebound_user_survives_timeout
    (websocket : nat) (userIp : string) (message : JoinMessage) (user : nat)
    (token : string) (st : State) :
  timeout_callback user (joined_state true websocket userIp message user token st)
  = joined_state true websocket userIp message user token st.
Proof.
  apply timeout_callback_bound.
  destruct (joined_state_tables true websocket userIp message user token st)
    as (_ & _ & -> & _).
  rewrite lookup_insert_eq. cbn. set_solver.
Qed.

(** * More properties *)

(** ** Bearer tokens *)

Lemma bearer_of_header (token : string) :
  bearer (Some ("Bearer " +:+ token)) = token.
Proof.
  unfold bearer. lazy beta iota delta [String.append]. cbn.
  rewrite Nat.sub_0_r.
  assert (Hp : String.prefix "" token = true) by by destruct token.
  rewrite Hp. by apply substring_0_short.
Qed.

Lemma no_empty_token (st : State) :
  tokens_consistent st → tokenToUser st !! "" = None.
Proof.
  intros [_ Htruthy]. destruct (tokenToUser st !! "") as [u|] eqn:H; [|done].
  by apply Htruthy in H.
Qed.

(** X1. The tables being consistent, [requireUserToken] lets a request
    through exactly for the user its bearer token maps to; a request with
    no authorization header, or with one that does not start with
    "Bearer ", is answered 401 and the route does not run. *)
Theorem bearer_token_authenticates
    (token auth : string) (next : nat → State → Res) (st : State) :
  tokens_consistent st →
  requireUserToken (Some ("Bearer " +:+ token)) next st
  = match tokenToUser st !! token with
    | Some user => next user st
    | None => Done (emit [Respond 401 (Text_body InvalidUser)] st)
    end
  ∧ requireUserToken None next st = Done (emit [Respond 401 (Text_body InvalidUser)] st)
  ∧ if String.prefix "Bearer " auth then True
    else requireUserToken (Some auth) next st
         = Done (emit [Respond 401 (Text_body InvalidUser)] st).
Proof.
  intros Hinv. pose proof (no_empty_token st Hinv) as Hempty.
  split; [|split].
  - unfold requireUserToken. by rewrite bearer_of_header.
  - unfold requireUserToken, bearer. by rewrite Hempty.
  - destruct (String.prefix "Bearer " auth) eqn:Hp; [done|].
    unfold requireUserToken, bearer. by rewrite Hp, Hempty.
Qed.

(** ** The invariants and the removal of a user *)

Lemma killUser_tokens_consistent (user : nat) (st : State) :
  tokens_consistent st → tokens_consistent (killUser user st).
Proof.
  intros [Hbij Htruthy]. unfold tokens_consistent.
  rewrite killUser_userToToken, killUser_tokenToUser.
  destruct (userToToken st !! user) as [token|] eqn:Huser.
  - assert (Htok : tokenToUser st !! token = Some user) by by apply Hbij.
    rewrite (Htruthy _ _ Htok). split.
    + intros u t. destruct (decide (u = user)) as [->|Hu].
      * rewrite lookup_delete_eq. split; [done|].
        destruct (decide (t = token)) as [->|Ht];
          [by rewrite lookup_delete_eq|].
        rewrite lookup_delete_ne by done. intros H. apply Hbij in H. congruence.
      * rewrite lookup_delete_ne by done.
        destruct (decide (t = token)) as [->|Ht].
        -- rewrite lookup_delete_eq. split; [|done].
           intros H. apply Hbij in H. congruence.
        -- rewrite lookup_delete_ne by done. apply Hbij.
    + intros t u. destruct (decide (t = token)) as [->|Ht];
        [by rewrite lookup_delete_eq|].
      rewrite lookup_delete_ne by done. apply Htruthy.
  - split; [|done].
    intros u t. destruct (decide (u = user)) as [->|Hu].
    + rewrite lookup_delete_eq. split; [done|].
      intros H. apply Hbij in H. congruence.
    + rewrite lookup_delete_ne by done. apply Hbij.
Qed.

Lemma killUser_ids_bounded (user : nat) (st : State) :
  ids_bounded st → ids_bounded (killUser user st).
Proof.
  intros (Hu & Hh & Ht & Hc). unfold ids_bounded.
  rewrite killUser_users, killUser_userToToken, killUser_connections.
  destruct (killUser_frame user st) as (-> & _ & _ & _ & _ & _ & ->).
  repeat split.
  - intros u H. apply Hu. set_solver.
  - done.
  - intros u [t H]. apply lookup_delete_Some in H as [_ H]. by apply Ht.
  - intros u [t H]. apply lookup_delete_Some in H as [_ H]. by apply Hc.
Qed.

(** X2. The tables being consistent, a user who has been removed can no
    longer use any route: the token the user held is answered 401. *)
Theorem removed_user_cannot_authenticate
    (user : nat) (token : string) (next : nat → State → Res) (st : State) :
  tokens_consistent st →
  userToToken st !! user = Some token →
  requireUserToken (Some ("Bearer " +:+ token)) next (killUser user st)
  = Done (emit [Respond 401 (Text_body InvalidUser)] (killUser user st)).
Proof.
  intros Hinv Htoken.
  unfold requireUserToken. rewrite bearer_of_header.
  rewrite killUser_tokenToUser, Htoken.
  destruct Hinv as [Hbij Htruthy].
  assert (Htok : tokenToUser st !! token = Some user) by by apply Hbij.
  by rewrite (Htruthy _ _ Htok), lookup_delete_eq.
Qed.

(** X3. The tables being consistent, removing a user logs out nobody else:
    every other user keeps the token, the place in the registry and the
    connection held before, and the token still resolves to that user. *)
Theorem killUser_spares_the_others (user other : nat) (st : State) :
  tokens_consistent st →
  other ≠ user →
  userToToken (killUser user st) !! other = userToToken st !! other
  ∧ match userToToken st !! other with
    | Some token => tokenToUser (killUser user st) !! token = Some other
    | None => True
    end
  ∧ connections (killUser user st) !! other = connections st !! other
  ∧ userToConnections (killUser user st) !! other = userToConnections st !! other
  ∧ bool_decide (other ∈ users (killUser user st)) = bool_decide (other ∈ users st)
  ∧ heap (killUser user st) = heap st.
Proof.
  intros Hinv Hne.
  pose proof (killUser_tokens_consistent user st Hinv) as [Hbij' _].
  rewrite killUser_userToToken, killUser_connections, killUser_userToConnections,
    killUser_users, !lookup_delete_ne by done.
  destruct (killUser_frame user st) as (-> & _).
  repeat split.
  - destruct (userToToken st !! other) as [token|] eqn:Hother; [|done].
    apply Hbij'. by rewrite killUser_userToToken, lookup_delete_ne.
  - apply bool_decide_ext. set_solver.
Qed.

(** X4. Both invariants of the tables survive the closing of a socket,
    cleanly or not, and the firing of a timer. *)
Theorem invariants_survive_close_and_timeout (socket code k : nat) (st : State) :
  tokens_consistent st →
  ids_bounded st →
  tokens_consistent (on_close socket code st)
  ∧ ids_bounded (on_close socket code st)
  ∧ tokens_consistent (on_timeout k st)
  ∧ ids_bounded (on_timeout k st).
Proof.
  intros Htok Hids.
  assert (Hrm : ∀ user s, tokens_consistent s → ids_bounded s →
                  tokens_consistent (removeConnectionFromUser user socket s)
                  ∧ ids_bounded (removeConnectionFromUser user socket s)).
  { intros user s H1 H2. unfold removeConnectionFromUser.
    by destruct (userToConnections s !! user). }
  split; [|split; [|split]].
  - unfold on_close. destruct (listeners st !! socket) as [[ip|user]|]; try done.
    unfold close_handler.
    destruct (Nat.eqb code 1000 || Nat.eqb code 1001).
    + apply killUser_tokens_consistent. by apply Hrm.
    + unfold removeConnectionFromUser. cbn.
      by destruct (userToConnections st !! user).
  - unfold on_close. destruct (listeners st !! socket) as [[ip|user]|]; try done.
    unfold close_handler.
    destruct (Nat.eqb code 1000 || Nat.eqb code 1001).
    + apply killUser_ids_bounded. by apply Hrm.
    + unfold removeConnectionFromUser. cbn.
      by destruct (userToConnections st !! user).
  - unfold on_timeout. destruct (timers st !! k) as [user|]; [|done].
    unfold timeout_callback. destruct (isUserConnectionless user _); [|done].
    by apply killUser_tokens_consistent.
  - unfold on_timeout. destruct (timers st !! k) as [user|]; [|done].
    unfold timeout_callback. destruct (isUserConnectionless user _); [|done].
    by apply killUser_ids_bounded.
Qed.

(** ** The invariants and joining *)

Lemma tokens_consistent_ext (st st' : State) :
  tokenToUser st' = tokenToUser st →
  userToToken st' = userToToken st →
  tokens_consistent st → tokens_consistent st'.
Proof. unfold tokens_consistent. by intros -> ->. Qed.

Lemma tokens_consistent_add (u : nat) (t : string) (st st' : State) :
  tokenToUser st' = <[t := u]> (tokenToUser st) →
  userToToken st' = <[u := t]> (userToToken st) →
  tokenToUser st !! t = None →
  userToToken st !! u = None →
  truthy t = true →
  tokens_consistent st → tokens_consistent st'.
Proof.
  intros Htu Hut Ht Hu Htruthy [Hbij Hall]. unfold tokens_consistent.
  rewrite Htu, Hut. split.
  - intros u' t'.
    destruct (decide (u' = u)) as [->|Hu'], (decide (t' = t)) as [->|Ht'];
      rewrite ?lookup_insert_eq, ?lookup_insert_ne by done.
    + done.
    + split; [congruence|]. intros H. apply Hbij in H. congruence.
    + split; [|congruence]. intros H. apply Hbij in H. congruence.
    + apply Hbij.
  - intros t' u'. destruct (decide (t' = t)) as [->|Ht'];
      rewrite ?lookup_insert_eq, ?lookup_insert_ne by done; [done|apply Hall].
Qed.

Lemma tokens_consistent_same (u : nat) (t : string) (st st' : State) :
  tokenToUser st' = <[t := u]> (tokenToUser st) →
  userToToken st' = <[u := t]> (userToToken st) →
  tokenToUser st !! t = Some u →
  tokens_consistent st → tokens_consistent st'.
Proof.
  intros Htu Hut Ht Hinv. apply (tokens_consistent_ext st); [| |done].
  - rewrite Htu. by apply insert_id.
  - rewrite Hut. apply insert_id. by apply Hinv.
Qed.

Lemma getUser_fresh (id : nat) (st : State) :
  id ∉ users st →
  getUser id st
  = set_users ({[id]} ∪ users st)
      (set_heap (<[id := {| userId := id; name := None; avatar := None;
                            position := None; emotes := []; tags := [] |}]> (heap st)) st).
Proof.
  intros H. unfold getUser. by rewrite (bool_decide_eq_false_2 _ H).
Qed.

Lemma getUser_bounds (id : nat) (st : State) :
  (∀ u, u ∈ users (getUser id st) → u = id ∨ u ∈ users st)
  ∧ (∀ u, is_Some (heap (getUser id st) !! u) → u = id ∨ is_Some (heap st !! u)).
Proof.
  unfold getUser. case_bool_decide; cbn; [naive_solver|].
  split.
  - intros u. set_solver.
  - intros u. destruct (decide (u = id)) as [->|Hne]; [by left|].
    rewrite lookup_insert_ne by done. by right.
Qed.

Lemma joined_state_ids_bounded (resumed : bool) (websocket : nat) (userIp : string)
    (message : JoinMessage) (user : nat) (token : string) (st : State) :
  (user ≤ lastUserId st)%nat →
  ids_bounded st →
  ids_bounded (joined_state resumed websocket userIp message user token st).
Proof.
  intros Huser (Hu & Hh & Ht & Hc). unfold ids_bounded.
  destruct (joined_state_tables resumed websocket userIp message user token st)
    as (_ & -> & _ & _ & -> & -> & -> & ->).
  repeat split.
  - done.
  - intros u H. apply lookup_alter_is_Some in H. by apply Hh.
  - intros u. destruct (decide (u = user)) as [->|Hne]; [done|].
    rewrite lookup_insert_ne by done. apply Ht.
  - intros u. destruct (decide (u = user)) as [->|Hne]; [done|].
    rewrite lookup_insert_ne by done. apply Hc.
Qed.

Lemma allocate_ids_bounded (websocket : nat) (st : State) :
  ids_bounded st →
  ids_bounded (getUser (S (lastUserId st))
                 (set_lastUserId (S (lastUserId st)) (heard websocket st))).
Proof.
  intros (Hu & Hh & Ht & Hc).
  destruct (getUser_bounds (S (lastUserId st))
              (set_lastUserId (S (lastUserId st)) (heard websocket st))) as [Hgu Hgh].
  unfold ids_bounded.
  assert (Hlast : lastUserId (getUser (S (lastUserId st))
                    (set_lastUserId (S (lastUserId st)) (heard websocket st)))
                  = S (lastUserId st)).
  { unfold getUser. by case_bool_decide. }
  assert (Hut : userToToken (getUser (S (lastUserId st))
                    (set_lastUserId (S (lastUserId st)) (heard websocket st)))
                = userToToken st).
  { unfold getUser. by case_bool_decide. }
  assert (Hco : connections (getUser (S (lastUserId st))
                    (set_lastUserId (S (lastUserId st)) (heard websocket st)))
                = connections st).
  { unfold getUser. by case_bool_decide. }
  rewrite Hlast, Hut, Hco. repeat split.
  - intros u H. destruct (Hgu u H) as [->|H']; [lia|]. specialize (Hu u H'). lia.
  - intros u H. destruct (Hgh u H) as [->|H']; [lia|]. specialize (Hh u H'). lia.
  - intros u H. specialize (Ht u H). lia.
  - intros u H. specialize (Hc u H). lia.
Qed.

(** X5. The socket host keeps both invariants of the tables through every
    [join] message (heard or not, resumed, new or rejected), provided the
    token [nanoid] hands out is non-empty and not in use. *)
Theorem invariants_survive_join
    (websocket : nat) (message : JoinMessage) (fresh : string) (st : State) :
  tokens_consistent st →
  ids_bounded st →
  truthy fresh = true →
  tokenToUser st !! fresh = None →
  tokens_consistent (final (SocketHost.on_join websocket message fresh st))
  ∧ ids_bounded (final (SocketHost.on_join websocket message fresh st)).
Proof.
  intros Htok Hids Htruthy Hfresh.
  destruct (listeners st !! websocket) as [[userIp|user]|] eqn:Hl;
    try (unfold SocketHost.on_join; rewrite Hl; by split).
  destruct (SocketHost.resume message st) as [token|] eqn:Hres.
  - apply resume_Some in Hres as Hparts. destruct Hparts as (_ & _ & [user Huser]).
    rewrite (on_join_resume _ _ _ _ _ _ _ Hl Hres Huser), bind_user_eq. cbn [final].
    pose proof (joined_state_tables true websocket userIp message user token
                  (heard websocket st)) as (_ & _ & _ & Htu & Hut & _).
    split.
    + by apply (tokens_consistent_same user token st).
    + apply joined_state_ids_bounded; [|done].
      destruct Hids as (_ & _ & Ht & _). apply Ht.
      exists token. by apply Htok.
  - rewrite (on_join_new _ _ _ _ _ Hl Hres).
    destruct (SocketHost.authorised message st); [|by split].
    rewrite bind_user_eq. cbn [final].
    pose proof (joined_state_tables false websocket userIp message (S (lastUserId st)) fresh
                  (getUser (S (lastUserId st))
                     (set_lastUserId (S (lastUserId st)) (heard websocket st))))
      as (_ & _ & _ & Htu & Hut & _).
    assert (Hsame : tokenToUser (getUser (S (lastUserId st))
                      (set_lastUserId (S (lastUserId st)) (heard websocket st)))
                    = tokenToUser st
                    ∧ userToToken (getUser (S (lastUserId st))
                        (set_lastUserId (S (lastUserId st)) (heard websocket st)))
                      = userToToken st).
    { unfold getUser. by case_bool_decide. }
    destruct Hsame as [Hs1 Hs2]. rewrite Hs1 in Htu. rewrite Hs2 in Hut.
    split.
    + apply (tokens_consistent_add (S (lastUserId st)) fresh st); try done.
      destruct Hids as (_ & _ & Ht & _).
      destruct (userToToken st !! S (lastUserId st)) as [t|] eqn:Hold; [|done].
      assert (S (lastUserId st) ≤ lastUserId st)%nat by (apply Ht; by exists t). lia.
    + apply joined_state_ids_bounded.
      * unfold getUser. case_bool_decide; cbn; lia.
      * by apply allocate_ids_bounded.
Qed.

(** X6. The ids in use being bounded by the counter, a [join] that resumes
    nothing and is authorised creates a user under an id that was never in
    use, with the name of the message, no avatar, no position, no emotes
    and no tags; the records of all other users are untouched. *)
Theorem newcomer_is_brand_new
    (websocket other : nat) (userIp fresh tag : string) (message : JoinMessage)
    (st : State) :
  ids_bounded st →
  listeners st !! websocket = Some (AwaitingJoin userIp) →
  SocketHost.resume message st = None →
  SocketHost.authorised message st = true →
  (S (lastUserId st) ∉ users st)
  ∧ heap st !! S (lastUserId st) = None
  ∧ users (final (SocketHost.on_join websocket message fresh st))
    = {[S (lastUserId st)]} ∪ users st
  ∧ heap (final (SocketHost.on_join websocket message fresh st)) !! S (lastUserId st)
    = Some (newcomer (S (lastUserId st)) (join_name message) None)
  ∧ has_tag tag (S (lastUserId st)) (final (SocketHost.on_join websocket message fresh st))
    = false
  ∧ (if decide (other = S (lastUserId st)) then True
     else heap (final (SocketHost.on_join websocket message fresh st)) !! other
          = heap st !! other).
Proof.
  intros (Hu & Hh & _) Hl Hres Hauth.
  assert (Hnew : S (lastUserId st) ∉ users st).
  { intros H. specialize (Hu _ H). lia. }
  assert (Hnone : heap st !! S (lastUserId st) = None).
  { destruct (heap st !! S (lastUserId st)) as [x|] eqn:Hx; [|done].
    assert (S (lastUserId st) ≤ lastUserId st)%nat by (apply Hh; by exists x). lia. }
  assert (Hfresh : S (lastUserId st)
                   ∉ users (set_lastUserId (S (lastUserId st)) (heard websocket st)))
    by exact Hnew.
  rewrite (on_join_new _ _ _ _ _ Hl Hres), Hauth, bind_user_eq,
    (getUser_fresh _ _ Hfresh). cbn [final].
  match goal with
  | |- context [joined_state false websocket userIp message ?i fresh ?s] =>
      pose proof (joined_state_tables false websocket userIp message i fresh s)
        as (_ & _ & _ & _ & _ & Husers & _ & Hheap)
  end.
  unfold has_tag, tags_of. rewrite Husers, Hheap.
  split; [done|]. split; [done|]. split; [done|].
  cbn. rewrite lookup_alter_eq, lookup_insert_eq. cbn.
  split; [done|]. split; [done|].
  case_decide as Hother; [done|].
  by rewrite lookup_alter_ne, lookup_insert_ne.
Qed.

(** ** Joining with a ticket *)

Lemma ticket_attach_connections (websocket : nat) (ip : string) (ticket : Ticket)
    (fresh : string) (st : State) :
  connections (TicketRoutes.attach websocket ip ticket fresh st) !! S (lastUserId st)
  = Some websocket.
Proof. unfold TicketRoutes.attach. cbn. apply lookup_insert_eq. Qed.

Lemma ws_handler_eq (websocket : nat) (ip : string) (ticket : Ticket)
    (fresh : string) (st : State) :
  TicketHost.ws_handler websocket ip ticket fresh st
  = Done (TicketRoutes.joined_state websocket ip ticket fresh st).
Proof.
  pose proof (ticket_attach_connections websocket ip ticket fresh st) as H.
  change (TicketHost.ws_handler websocket ip ticket fresh st)
    with (sendCoreState (S (lastUserId st))
            (TicketRoutes.attach websocket ip ticket fresh st)
          >>> sendOnly (MAssign (S (lastUserId st)) fresh) (S (lastUserId st))
          >>> sendOtherState (S (lastUserId st))).
  rewrite (sendCoreState_connected _ _ _ H). cbn [andThen].
  rewrite (sendOnly_connected _ (S (lastUserId st)) websocket
             (emit _ (TicketRoutes.attach websocket ip ticket fresh st)) H).
  cbn [andThen]. unfold sendOtherState.
  rewrite (sendOnly_connected _ (S (lastUserId st)) websocket
             (emit _ (emit _ (TicketRoutes.attach websocket ip ticket fresh st))) H).
  unfold TicketRoutes.joined_state, other_state, emit. setters.
  by rewrite <- !app_assoc.
Qed.

Lemma ticket_attach_eq (websocket : nat) (ip : string) (ticket : Ticket)
    (fresh : string) (st : State) :
  S (lastUserId st) ∉ users st →
  TicketRoutes.attach websocket ip ticket fresh st
  = set_connections (<[S (lastUserId st) := websocket]> (connections st))
      (set_listeners (<[websocket := Joined (S (lastUserId st))]> (listeners st))
         (set_userToIp (<[S (lastUserId st) := ip]> (userToIp st))
            (set_userToConnections
               (<[S (lastUserId st)
                  := default ∅ (userToConnections st !! S (lastUserId st)) ∪ {[websocket]}]>
                  (userToConnections st))
               (set_userToToken (<[S (lastUserId st) := fresh]> (userToToken st))
                  (set_tokenToUser (<[fresh := S (lastUserId st)]> (tokenToUser st))
                     (set_log
                        (log st
                         ++ broadcast
                              (MUser (newcomer (S (lastUserId st)) (ticket_name ticket)
                                        (Some (ticket_avatar ticket)))) st)
                        (set_users ({[S (lastUserId st)]} ∪ users st)
                           (set_heap
                              (<[S (lastUserId st)
                                 := newcomer (S (lastUserId st)) (ticket_name ticket)
                                      (Some (ticket_avatar ticket))]> (heap st))
                              (set_lastUserId (S (lastUserId st)) st))))))))).
Proof.
  intros Hnew.
  assert (Hfresh : S (lastUserId st) ∉ users (set_lastUserId (S (lastUserId st)) st))
    by exact Hnew.
  unfold TicketRoutes.attach. rewrite (getUser_fresh _ _ Hfresh).
  unfold set_avatar, set_name, sendAll_user, addUserToken, addConnectionToUser.
  cbn. rewrite !alter_insert_eq, lookup_insert_eq. reflexivity.
Qed.

Lemma requireNotBanned_pass (ip : string) (next : State → Res) (st : State) :
  bans st !! ip = None → TicketHost.requireNotBanned ip next st = next st.
Proof. intros H. unfold TicketHost.requireNotBanned. by rewrite H. Qed.

(** X7. The ids in use being bounded by the counter, a socket that comes
    with a ticket from an address that is not banned creates a user under
    an id never in use, with the name and avatar of the ticket and no tags;
    the new user is announced to the connections there were (not to
    itself), is given a token, and receives the state; the ticket stays in
    the table, so it can be used again. *)
Theorem ticket_join_creates_user
    (websocket : nat) (ip id fresh : string) (ticket : Ticket) (st : State) :
  ids_bounded st →
  bans st !! ip = None →
  tickets st !! id = Some ticket →
  TicketHost.ws_zone_ticket websocket ip id fresh st
  = Done (TicketRoutes.joined_state websocket ip ticket fresh st)
  ∧ (S (lastUserId st) ∉ users st)
  ∧ connections st !! S (lastUserId st) = None
  ∧ users (TicketRoutes.joined_state websocket ip ticket fresh st)
    = {[S (lastUserId st)]} ∪ users st
  ∧ heap (TicketRoutes.joined_state websocket ip ticket fresh st)
    = <[S (lastUserId st)
        := newcomer (S (lastUserId st)) (ticket_name ticket) (Some (ticket_avatar ticket))]>
        (heap st)
  ∧ tokenToUser (TicketRoutes.joined_state websocket ip ticket fresh st)
    = <[fresh := S (lastUserId st)]> (tokenToUser st)
  ∧ connections (TicketRoutes.joined_state websocket ip ticket fresh st)
    = <[S (lastUserId st) := websocket]> (connections st)
  ∧ listeners (TicketRoutes.joined_state websocket ip ticket fresh st)
    = <[websocket := Joined (S (lastUserId st))]> (listeners st)
  ∧ tickets (TicketRoutes.joined_state websocket ip ticket fresh st) = tickets st
  ∧ log (TicketRoutes.joined_state websocket ip ticket fresh st)
    = log st
      ++ broadcast (MUser (newcomer (S (lastUserId st)) (ticket_name ticket)
                             (Some (ticket_avatar ticket)))) st
      ++ core_state websocket (TicketRoutes.joined_state websocket ip ticket fresh st)
      ++ [Send websocket (MAssign (S (lastUserId st)) fresh)]
      ++ other_state websocket (TicketRoutes.joined_state websocket ip ticket fresh st).
Proof.
  intros (Hu & _ & _ & Hc) Hban Hticket.
  assert (Hnew : S (lastUserId st) ∉ users st).
  { intros H. specialize (Hu _ H). lia. }
  assert (Hconn : connections st !! S (lastUserId st) = None).
  { destruct (connections st !! S (lastUserId st)) as [x|] eqn:Hx; [|done].
    assert (S (lastUserId st) ≤ lastUserId st)%nat by (apply Hc; by exists x). lia. }
  split.
  { unfold TicketHost.ws_zone_ticket, TicketHost.requireNotBanned.
    rewrite Hban, Hticket. cbn. apply ws_handler_eq. }
  split; [done|]. split; [done|].
  unfold TicketRoutes.joined_state, core_state, other_state, current_play, roster.
  rewrite (ticket_attach_eq _ _ _ _ _ Hnew).
  unfold emit. cbn. repeat split.
  by rewrite <- !app_assoc.
Qed.

(** X8. The ticket host keeps both invariants of the tables through every
    request for the zone socket (banned, unknown ticket, or joined),
    provided the token [nanoid] hands out is non-empty and not in use. *)
Theorem invariants_survive_ticket_join
    (websocket : nat) (ip id fresh : string) (st : State) :
  tokens_consistent st →
  ids_bounded st →
  truthy fresh = true →
  tokenToUser st !! fresh = None →
  tokens_consistent (final (TicketHost.ws_zone_ticket websocket ip id fresh st))
  ∧ ids_bounded (final (TicketHost.ws_zone_ticket websocket ip id fresh st)).
Proof.
  intros Htok Hids Htruthy Hfresh.
  unfold TicketHost.ws_zone_ticket, TicketHost.requireNotBanned.
  case_bool_decide as Hban; [by split|].
  destruct (tickets st !! id) as [ticket|] eqn:Hticket; [|by split].
  rewrite ws_handler_eq. cbn [final].
  assert (Hnew : S (lastUserId st) ∉ users st).
  { intros H. destruct Hids as (Hu & _). specialize (Hu _ H). lia. }
  unfold TicketRoutes.joined_state. rewrite (ticket_attach_eq _ _ _ _ _ Hnew).
  split.
  - apply (tokens_consistent_add (S (lastUserId st)) fresh st); try done.
    destruct Hids as (_ & _ & Ht & _).
    destruct (userToToken st !! S (lastUserId st)) as [t|] eqn:Hold; [|done].
    assert (S (lastUserId st) ≤ lastUserId st)%nat by (apply Ht; by exists t). lia.
  - destruct Hids as (Hu & Hh & Ht & Hc). unfold ids_bounded. cbn.
    repeat split; intros u.
    + intros H. apply elem_of_union in H as [H|H]; [set_solver|].
      specialize (Hu _ H). lia.
    + destruct (decide (u = S (lastUserId st))) as [->|Hne]; [done|].
      rewrite lookup_insert_ne by done. intros H. specialize (Hh _ H). lia.
    + destruct (decide (u = S (lastUserId st))) as [->|Hne]; [done|].
      rewrite lookup_insert_ne by done. intros H. specialize (Ht _ H). lia.
    + destruct (decide (u = S (lastUserId st))) as [->|Hne]; [done|].
      rewrite lookup_insert_ne by done. intros H. specialize (Hc _ H). lia.
Qed.

(** X9. From an address that is not banned: a ticket that is issued
    carries the name and avatar of the request and opens the zone socket
    afterwards, for a user of that name and avatar; a ticket that was never
    issued opens nothing, the answer is 404 and no user is created. *)
Theorem ticket_issue_and_use
    (websocket : nat) (ip n a fresh token id : string) (st : State) :
  bans st !! ip = None →
  TicketHost.post_zone_join ip n a fresh st
  = Done (emit [Respond 200 (Ticket_body fresh)]
            (set_tickets (<[fresh := {| ticket_name := n; ticket_avatar := a |}]>
                            (tickets st)) st))
  ∧ TicketHost.ws_zone_ticket websocket ip fresh token
      (final (TicketHost.post_zone_join ip n a fresh st))
    = Done (TicketRoutes.joined_state websocket ip
              {| ticket_name := n; ticket_avatar := a |} token
              (final (TicketHost.post_zone_join ip n a fresh st)))
  ∧ match tickets st !! id with
    | Some _ => True
    | None =>
        TicketHost.ws_zone_ticket websocket ip id token st
        = Done (emit [Respond 404 Empty_body] st)
    end.
Proof.
  intros Hban.
  assert (Hpost : TicketHost.post_zone_join ip n a fresh st
                  = Done (emit [Respond 200 (Ticket_body fresh)]
                            (set_tickets
                               (<[fresh := {| ticket_name := n; ticket_avatar := a |}]>
                                  (tickets st)) st))).
  { unfold TicketHost.post_zone_join, TicketHost.requireNotBanned. by rewrite Hban. }
  split; [exact Hpost|]. rewrite Hpost. cbn [final]. split.
  - unfold TicketHost.ws_zone_ticket.
    rewrite requireNotBanned_pass by exact Hban.
    cbn [tickets emit set_log set_tickets]. cbn. rewrite lookup_insert_eq.
    apply ws_handler_eq.
  - destruct (tickets st !! id) eqn:Hid; [done|].
    unfold TicketHost.ws_zone_ticket, TicketHost.requireNotBanned.
    by rewrite Hban, Hid.
Qed.

(** ** Queueing, in full *)

Lemma status_to_user (text : Text) (user : nat) (st : State) :
  status text (Some user) st
  = match connections st !! user with
    | Some socket => Done (emit [Send socket (MStatus text)] st)
    | None => Raise TypeError st
    end.
Proof. reflexivity. Qed.

Lemma status_to_user_playback (text : Text) (user : nat) (st : State) :
  playback (final (status text (Some user) st)) = playback st.
Proof. rewrite status_to_user. by destruct (connections st !! user). Qed.

(** X10. Outside the dj privilege of event mode, a requester whose address
    already has as many items pending as the limit allows cannot enqueue
    anything: the ticket host raises an error, the socket host at most
    sends a private status, and the queue stays as it is. *)
Theorem queue_limit_per_address
    (user : nat) (m : Media) (banger : bool) (st : State) :
  eventMode st && has_tag "dj" user st = false →
  (perUserQueueLimit (opts st) ≤ queued_by_ip (userToIp st !! user) st)%nat →
  (∃ text, TicketHost.tryQueueMedia user m banger st = Raise (Error text) st)
  ∧ (∃ text, SocketHost.tryQueueMedia user m banger st = status text (Some user) st)
  ∧ playback (final (SocketHost.tryQueueMedia user m banger st)) = playback st.
Proof.
  intros Hdj Hfull. apply Nat.leb_le in Hfull.
  assert (HB : ∃ text, TicketHost.tryQueueMedia user m banger st = Raise (Error text) st).
  { unfold TicketHost.tryQueueMedia. rewrite Hdj, Hfull.
    destruct (eventMode st && negb (has_tag "dj" user st)); [by eexists|].
    destruct (List.find _ _); by eexists. }
  assert (HA : ∃ text, SocketHost.tryQueueMedia user m banger st
                       = status text (Some user) st).
  { unfold SocketHost.tryQueueMedia. rewrite Hdj, Hfull.
    destruct (eventMode st && negb (has_tag "dj" user st)); [by eexists|].
    destruct (List.find _ _); by eexists. }
  split; [done|]. split; [done|].
  destruct HA as [text ->]. apply status_to_user_playback.
Qed.

Lemma playback_queueMedia_eq (m : Media) (i : QueueInfo) (st : State) :
  playback_queueMedia m i st
  = match Playback.currentItem (playback st) with
    | Some _ =>
        sendAll (MQueue [{| itemId := Playback.nextId (playback st); media := m; info := i |}])
          (set_playback
             (Playback.mk (Playback.currentItem (playback st))
                (Playback.startTimestamp (playback st))
                (Playback.queue (playback st)
                 ++ [{| itemId := Playback.nextId (playback st); media := m; info := i |}])
                (S (Playback.nextId (playback st))) (Playback.startDelay (playback st)))
             st)
    | None =>
        on_playback
          (Playback.EvPlay {| itemId := Playback.nextId (playback st); media := m; info := i |})
          (sendAll (MQueue [{| itemId := Playback.nextId (playback st); media := m;
                               info := i |}])
             (set_playback
                (Playback.mk
                   (Some {| itemId := Playback.nextId (playback st); media := m; info := i |})
                   (now st + Playback.startDelay (playback st))
                   (Playback.queue (playback st))
                   (S (Playback.nextId (playback st))) (Playback.startDelay (playback st)))
                st))
    end.
Proof.
  unfold playback_queueMedia, Playback.queueMedia.
  by destruct (Playback.currentItem (playback st)).
Qed.

Lemma tryQueueMedia_accepted (user : nat) (m : Media) (banger : bool) (st : State) :
  eventMode st && negb (has_tag "dj" user st) = false →
  Forall (λ queued, source (media queued) ≠ source m) (Playback.queue (playback st)) →
  negb (eventMode st && has_tag "dj" user st)
  && Nat.leb (perUserQueueLimit (opts st)) (queued_by_ip (userToIp st !! user) st) = false →
  TicketHost.tryQueueMedia user m banger st
  = Done (playback_queueMedia m {| info_userId := Some user;
                                   info_ip := userToIp st !! user;
                                   info_banger := banger |} st)
  ∧ SocketHost.tryQueueMedia user m banger st
    = Done (playback_queueMedia m {| info_userId := Some user;
                                     info_ip := userToIp st !! user;
                                     info_banger := banger |} st).
Proof.
  intros Hmode Hnew Hroom.
  assert (Hfind : List.find (λ queued, String.eqb (source (media queued)) (source m))
                            (Playback.queue (playback st)) = None).
  { destruct (List.find _ _) as [q|] eqn:Hq; [|done].
    apply find_some in Hq as [Hin Heq]. apply String.eqb_eq in Heq.
    rewrite Forall_forall in Hnew. apply list_elem_of_In in Hin.
    by destruct (Hnew _ Hin). }
  unfold TicketHost.tryQueueMedia, SocketHost.tryQueueMedia, mediaEquals.
  by rewrite Hmode, Hfind, Hroom.
Qed.

(** X11. A request that passes the three checks (not barred by event mode,
    no pending item of the same identity, room under the limit or the dj
    privilege) enqueues the media with the next item id and with the
    requester's user id, the requester's address and the banger flag as its
    provenance.  While something plays the item goes to the end of the
    queue and everyone is sent it; while idle it starts playing at once,
    the queue stays as it was and the votes are cleared. *)
Theorem accepted_media_is_queued
    (user : nat) (m : Media) (banger : bool) (st : State) :
  eventMode st && negb (has_tag "dj" user st) = false →
  Forall (λ queued, source (media queued) ≠ source m) (Playback.queue (playback st)) →
  negb (eventMode st && has_tag "dj" user st)
  && Nat.leb (perUserQueueLimit (opts st)) (queued_by_ip (userToIp st !! user) st) = false →
  TicketHost.tryQueueMedia user m banger st = SocketHost.tryQueueMedia user m banger st
  ∧ ∃ st',
      TicketHost.tryQueueMedia user m banger st = Done st'
      ∧ Playback.nextId (playback st') = S (Playback.nextId (playback st))
      ∧ match Playback.currentItem (playback st) with
        | Some current =>
            Playback.currentItem (playback st') = Some current
            ∧ Playback.queue (playback st')
              = Playback.queue (playback st)
                ++ [{| itemId := Playback.nextId (playback st); media := m;
                       info := {| info_userId := Some user;
                                  info_ip := userToIp st !! user;
                                  info_banger := banger |} |}]
            ∧ skips st' = skips st
            ∧ log st'
              = log st
                ++ broadcast
                     (MQueue [{| itemId := Playback.nextId (playback st); media := m;
                                 info := {| info_userId := Some user;
                                            info_ip := userToIp st !! user;
                                            info_banger := banger |} |}]) st
        | None =>
            Playback.currentItem (playback st')
            = Some {| itemId := Playback.nextId (playback st); media := m;
                      info := {| info_userId := Some user;
                                 info_ip := userToIp st !! user;
                                 info_banger := banger |} |}
            ∧ Playback.queue (playback st') = Playback.queue (playback st)
            ∧ skips st' = ∅
        end.
Proof.
  intros Hmode Hnew Hroom.
  destruct (tryQueueMedia_accepted user m banger st Hmode Hnew Hroom) as [HB HA].
  split; [by rewrite HA, HB|].
  eexists. split; [exact HB|].
  rewrite playback_queueMedia_eq.
  destruct (Playback.currentItem (playback st)) as [current|] eqn:Hcur; cbn;
    repeat split.
Qed.

Lemma queued_by_ip_eq (ip : option string) (st : State) :
  queued_by_ip ip st
  = length (filter (λ item, same_ip (info_ip (info item)) ip = true)
                   (Playback.queue (playback st))).
Proof. reflexivity. Qed.

(** X12. No address climbs over the limit: outside the dj privilege of
    event mode, after any attempt to enqueue, every address has at most as
    many items pending as it had before or as the limit allows, whichever
    is larger. *)
Theorem queue_share_stays_bounded
    (user : nat) (m : Media) (banger : bool) (ip : option string) (st : State) :
  eventMode st && has_tag "dj" user st = false →
  (queued_by_ip ip (final (TicketHost.tryQueueMedia user m banger st))
   ≤ Nat.max (queued_by_ip ip st) (perUserQueueLimit (opts st)))%nat
  ∧ (queued_by_ip ip (final (SocketHost.tryQueueMedia user m banger st))
     ≤ Nat.max (queued_by_ip ip st) (perUserQueueLimit (opts st)))%nat.
Proof.
  intros Hdj.
  assert (Hsame : ∀ r, playback (final r) = playback st →
            (queued_by_ip ip (final r)
             ≤ Nat.max (queued_by_ip ip st) (perUserQueueLimit (opts st)))%nat).
  { intros r Hr. rewrite !queued_by_ip_eq, Hr. lia. }
  assert (Hgrow : ∀ st',
            st' = playback_queueMedia m {| info_userId := Some user;
                                           info_ip := userToIp st !! user;
                                           info_banger := banger |} st →
            Nat.leb (perUserQueueLimit (opts st))
                    (queued_by_ip (userToIp st !! user) st) = false →
            (queued_by_ip ip st'
             ≤ Nat.max (queued_by_ip ip st) (perUserQueueLimit (opts st)))%nat).
  { intros st' -> Hroom. apply Nat.leb_gt in Hroom.
    rewrite playback_queueMedia_eq, !queued_by_ip_eq in *.
    destruct (Playback.currentItem (playback st)); cbn; [|lia].
    rewrite filter_app, length_app.
    destruct (decide (same_ip (userToIp st !! user) ip = true)) as [Hip|Hip].
    - rewrite filter_cons_True by done. cbn.
      apply bool_decide_eq_true_1 in Hip. subst ip. lia.
    - rewrite filter_cons_False by done. cbn. lia. }
  split.
  - unfold TicketHost.tryQueueMedia. rewrite Hdj.
    destruct (eventMode st && negb (has_tag "dj" user st)); [by apply Hsame|].
    destruct (List.find _ _); [by apply Hsame|].
    cbn [negb andb].
    destruct (Nat.leb (perUserQueueLimit (opts st))
                (queued_by_ip (userToIp st !! user) st)) eqn:Hroom;
      [by apply Hsame|by apply Hgrow].
  - unfold SocketHost.tryQueueMedia. rewrite Hdj.
    destruct (eventMode st && negb (has_tag "dj" user st));
      [apply Hsame, status_to_user_playback|].
    destruct (List.find _ _); [apply Hsame, status_to_user_playback|].
    cbn [negb andb].
    destruct (Nat.leb (perUserQueueLimit (opts st))
                (queued_by_ip (userToIp st !! user) st)) eqn:Hroom;
      [apply Hsame, status_to_user_playback|by apply Hgrow].
Qed.

(** ** Taking an item out of the queue *)

Lemma find_item_Some (id : option nat) (item : QueueItem) (st : State) :
  find_item id st = Some item →
  id = Some (itemId item)
  ∧ item ∈ Playback.queue (playback st)
  ∧ Playback.is_pending (itemId item) (Playback.queue (playback st)) = true.
Proof.
  unfold find_item. destruct id as [n|]; [|done]. intros H.
  apply find_some in H as [Hin Heq]. apply Nat.eqb_eq in Heq. subst n.
  split; [done|]. split; [by apply list_elem_of_In|].
  unfold Playback.is_pending. apply existsb_exists. exists item.
  by rewrite Nat.eqb_refl.
Qed.

Lemma playback_unqueue_pending (item : QueueItem) (st : State) :
  Playback.is_pending (itemId item) (Playback.queue (playback st)) = true →
  playback_unqueue item st
  = sendAll (MUnqueue (itemId item))
      (set_playback
         (with_queue (Playback.remove_item (itemId item) (Playback.queue (playback st)))
                     (playback st)) st).
Proof.
  intros H. unfold playback_unqueue, Playback.unqueue. by rewrite H.
Qed.

Lemma remove_item_shorter (id : nat) (q : list QueueItem) :
  Playback.is_pending id q = true →
  length (Playback.remove_item id q) = pred (length q)
  ∧ ∀ x, x ∈ Playback.remove_item id q → x ∈ q.
Proof.
  induction q as [|y q IH]; [done|]. cbn.
  destruct (Nat.eqb (itemId y) id) eqn:Heq; cbn.
  - intros _. split; [done|]. intros x Hx. by right.
  - intros H. destruct (IH H) as [Hlen Hsub]. split.
    + rewrite Hlen. destruct q; [done|]. reflexivity.
    + intros x Hx. apply elem_of_cons in Hx as [->|Hx]; [by left|].
      right. by apply Hsub.
Qed.

(** X13. A request to delete the pending item [item].  The owner of the
    item may always delete it; anyone else needs the admin tag, or the dj
    tag while event mode is on.  With that authority the item, one item, is
    taken out of the queue and everyone is told; without it the queue is
    left alone (the ticket host answers 403, the socket host 202 all the
    same).  What is playing is never touched. *)
Theorem delete_queue_needs_authority
    (user : nat) (id : option nat) (item : QueueItem) (st : State) :
  find_item id st = Some item →
  may_unqueue user item st
  = (if bool_decide (info_userId (info item) = Some user) then true
     else (eventMode st && has_tag "dj" user st) || has_tag "admin" user st)
  ∧ Playback.currentItem (playback (TicketRoutes.delete_queue user id st))
    = Playback.currentItem (playback st)
  ∧ Playback.currentItem (playback (SocketRoutes.delete_queue user id st))
    = Playback.currentItem (playback st)
  ∧ if may_unqueue user item st
    then Playback.queue (playback (TicketRoutes.delete_queue user id st))
         = Playback.remove_item (itemId item) (Playback.queue (playback st))
         ∧ Playback.queue (playback (SocketRoutes.delete_queue user id st))
           = Playback.remove_item (itemId item) (Playback.queue (playback st))
         ∧ length (Playback.remove_item (itemId item) (Playback.queue (playback st)))
           = pred (length (Playback.queue (playback st)))
         ∧ log (TicketRoutes.delete_queue user id st)
           = log st ++ broadcast (MUnqueue (itemId item)) st ++ [Respond 204 Empty_body]
         ∧ log (SocketRoutes.delete_queue user id st)
           = log st ++ broadcast (MUnqueue (itemId item)) st ++ [Respond 202 Empty_body]
    else TicketRoutes.delete_queue user id st = emit [Respond 403 Empty_body] st
         ∧ SocketRoutes.delete_queue user id st = emit [Respond 202 Empty_body] st.
Proof.
  intros Hfind. destruct (find_item_Some id item st Hfind) as (_ & _ & Hpending).
  split.
  { unfold may_unqueue. case_bool_decide; [by rewrite orb_true_r|].
    by rewrite orb_false_r. }
  unfold TicketRoutes.delete_queue, SocketRoutes.delete_queue. rewrite Hfind.
  destruct (may_unqueue user item st).
  - rewrite (playback_unqueue_pending item st Hpending).
    destruct (remove_item_shorter _ _ Hpending) as [Hlen _].
    unfold sendAll, emit. cbn. rewrite <- !app_assoc. by repeat split.
  - by repeat split.
Qed.

(** ** Bangers *)

(** X14. Whatever [randomInt] returns, the banger picked from a library is
    one of its media and lasts eight minutes at most; from a library in
    which everything is longer, nothing is picked. *)
Theorem banger_is_short (library : list Media) (pick : nat) :
  match libraryTagToBanger library pick with
  | Some m => m ∈ library ∧ duration m ≤ 480000
  | None => True
  end
  ∧ (Forall (λ m, 480000 < duration m) library → libraryTagToBanger library pick = None).
Proof.
  unfold libraryTagToBanger. split.
  - destruct (List.filter _ library !! pick) as [m|] eqn:Hm; [|done].
    apply list_elem_of_lookup_2, list_elem_of_In, filter_In in Hm as [Hin Hle].
    split; [by apply list_elem_of_In|]. apply Z.leb_le in Hle. exact Hle.
  - intros Hlong.
    assert (Hnil : List.filter (λ m, Z.leb (duration m) EIGHT_MINUTES) library = []).
    { induction library as [|m l IH]; [done|]. cbn.
      apply Forall_cons in Hlong as [Hm Hl].
      assert (Z.leb (duration m) EIGHT_MINUTES = false) as ->
        by (apply Z.leb_gt; exact Hm).
      by apply IH. }
    by rewrite Hnil.
Qed.

(** ** Echoes stay in shape *)

Lemma put_echo_bounded (user : nat) (pos : list Z) (text : string) (st : State) :
  echoes_bounded st → echoes_bounded (put_echo user pos text st).
Proof.
  intros Hinv pos' e. rewrite put_echo_echoes.
  destruct (String.eqb text "").
  - intros H. apply lookup_delete_Some in H as [_ H]. by apply Hinv.
  - destruct (decide (pos = pos')) as [->|Hne].
    + rewrite lookup_insert_eq. intros [= <-]. split; [done|].
      cbn. rewrite length_substring_0. lia.
    + rewrite lookup_insert_ne by done. apply Hinv.
Qed.

Lemma echoes_emit (out : list Out) (st : State) : echoes (emit out st) = echoes st.
Proof. by open_state st. Qed.

Lemma echoes_bounded_ext (st st' : State) :
  echoes st' = echoes st → echoes_bounded st → echoes_bounded st'.
Proof. unfold echoes_bounded. by intros ->. Qed.

(** X16. If every echo sits under its own position and is at most 512
    characters long, this is still so after any echo submission, accepted
    or refused, in both hosts; and a submission changes the echo of no
    other position. *)
Theorem echoes_stay_bounded
    (user : nat) (text : string) (pos other : list Z) (st : State) :
  echoes_bounded st →
  other ≠ pos →
  echoes_bounded (final (SocketHost.echo_handler user text pos st))
  ∧ echoes_bounded (TicketHost.post_echoes user text pos st)
  ∧ echoes (final (SocketHost.echo_handler user text pos st)) !! other
    = echoes st !! other
  ∧ echoes (TicketHost.post_echoes user text pos st) !! other = echoes st !! other.
Proof.
  intros Hinv Hne.
  assert (Hput : echoes (put_echo user pos text st) !! other = echoes st !! other).
  { rewrite put_echo_echoes. destruct (String.eqb text "").
    - by rewrite lookup_delete_ne.
    - by rewrite lookup_insert_ne. }
  unfold SocketHost.echo_handler, TicketHost.post_echoes.
  destruct (negb (negb (echo_is_admin pos st) || has_tag "admin" user st)).
  - rewrite status_to_user.
    destruct (connections st !! user); cbn [final]; rewrite ?echoes_emit;
      (split; [|split; [|split]]); try done;
      by apply (echoes_bounded_ext st); rewrite ?echoes_emit.
  - cbn [final]. rewrite echoes_emit.
    split; [by apply put_echo_bounded|]. split; [|done].
    apply (echoes_bounded_ext (put_echo user pos text st));
      [by rewrite echoes_emit | by apply put_echo_bounded].
Qed.

(** ** Requests about the queue leave the membership alone *)

Lemma same_membership_refl (st : State) : same_membership st st.
Proof. by repeat split. Qed.

Lemma same_membership_trans (st1 st2 st3 : State) :
  same_membership st1 st2 → same_membership st2 st3 → same_membership st1 st3.
Proof.
  unfold same_membership.
  intros (-> & -> & -> & -> & -> & -> & -> & -> & -> & -> & ->)
         (-> & -> & -> & -> & -> & -> & -> & -> & -> & -> & ->).
  by repeat split.
Qed.

Lemma same_membership_emit (out : list Out) (st : State) :
  same_membership st (emit out st).
Proof. open_state st. by repeat split. Qed.

Lemma same_membership_status (text : Text) (to : option nat) (st : State) :
  same_membership st (final (status text to st)).
Proof.
  destruct to as [u|]; [|apply same_membership_emit].
  rewrite status_to_user. destruct (connections st !! u); cbn [final];
    [apply same_membership_emit | apply same_membership_refl].
Qed.

Lemma same_membership_skip (message : option Text) (st : State) :
  same_membership st (skip message st).
Proof.
  rewrite skip_eq, playback_skip_eq. unfold status_all, sendAll, emit.
  open_state st.
  destruct message; cbn; destruct (Playback.queue p); cbn; by repeat split.
Qed.

Lemma same_membership_count_vote (what : string) (user : nat) (st : State) :
  same_membership st (count_vote what user st).
Proof.
  unfold count_vote.
  match goal with |- context [at_least ?a ?b] => destruct (at_least a b) end.
  - eapply same_membership_trans; [|apply same_membership_skip].
    open_state st. by repeat split.
  - unfold status_all, sendAll, emit. open_state st. by repeat split.
Qed.

Lemma same_membership_unqueue (item : QueueItem) (st : State) :
  same_membership st (playback_unqueue item st).
Proof.
  unfold playback_unqueue, Playback.unqueue.
  destruct (Playback.is_pending (itemId item) (Playback.queue (playback st)));
    cbn; unfold sendAll, emit; open_state st; by repeat split.
Qed.

Lemma same_membership_queueMedia (m : Media) (i : QueueInfo) (st : State) :
  same_membership st (playback_queueMedia m i st).
Proof.
  rewrite playback_queueMedia_eq.
  destruct (Playback.currentItem (playback st)); cbn;
    unfold sendAll, emit; open_state st; by repeat split.
Qed.

Lemma same_membership_checks (probe : nat → MediaStatus) (l : list QueueItem) (st : State) :
  same_membership st
    (foldl (λ s item, TicketHost.check item (TicketHost.getMediaStatus probe (media item)) s)
       st l).
Proof.
  revert st. induction l as [|x l IH]; intros st; [apply same_membership_refl|].
  cbn [foldl]. eapply same_membership_trans; [|apply IH].
  unfold TicketHost.check.
  destruct (TicketHost.getMediaStatus probe (media x));
    try apply same_membership_refl.
  eapply same_membership_trans; [apply same_membership_unqueue|].
  apply same_membership_emit.
Qed.

(** X17. The requests that queue, skip, delete an item or check the queue
    change nothing about who is in the zone, in either host and whatever
    their outcome: registry, user objects, id counter, both token tables,
    addresses, connections, bans, tickets and the event mode stay as they
    were, and with them the two invariants of the tables. *)
Theorem queue_requests_keep_membership
    (user : nat) (m : Media) (banger : bool) (id : nat) (src : string)
    (del : option nat) (probe : nat → MediaStatus) (st : State) :
  (same_membership st (final (TicketHost.post_queue user m st))
   ∧ same_membership st (final (SocketHost.tryQueueMedia user m banger st))
   ∧ same_membership st (final (TicketHost.post_queue_skip user id st))
   ∧ same_membership st (final (SocketHost.post_queue_skip user src st))
   ∧ same_membership st (TicketRoutes.delete_queue user del st)
   ∧ same_membership st (SocketRoutes.delete_queue user del st)
   ∧ same_membership st (TicketHost.checkQueue probe st))
  ∧ ∀ st', same_membership st st' →
      (tokens_consistent st → tokens_consistent st')
      ∧ (ids_bounded st → ids_bounded st').
Proof.
  split.
  - refine (conj _ (conj _ (conj _ (conj _ (conj _ (conj _ _)))))).
    + unfold TicketHost.post_queue, TicketHost.tryQueueMedia.
      repeat match goal with
             | |- context [if ?b then _ else _] => destruct b
             | |- context [match List.find ?f ?l with _ => _ end] => destruct (List.find f l)
             end; cbn [final try_catch andThen];
        try apply same_membership_emit.
      eapply same_membership_trans;
        [apply same_membership_queueMedia | apply same_membership_emit].
    + unfold SocketHost.tryQueueMedia.
      repeat match goal with
             | |- context [if ?b then _ else _] => destruct b
             | |- context [match List.find ?f ?l with _ => _ end] => destruct (List.find f l)
             end; cbn [final];
        try apply same_membership_status.
      apply same_membership_queueMedia.
    + unfold TicketHost.post_queue_skip, TicketHost.voteSkip.
      destruct (Playback.currentItem (playback st)) as [item|];
        [|apply same_membership_emit].
      destruct (negb (Nat.eqb (itemId item) id)) eqn:Hid;
        [apply same_membership_emit|].
      destruct (negb (eventMode st)); cbn [final].
      * eapply same_membership_trans; [|apply same_membership_emit].
        apply same_membership_count_vote.
      * destruct (has_tag "dj" user st); cbn [final];
          [|apply same_membership_emit].
        eapply same_membership_trans;
          [apply same_membership_skip | apply same_membership_emit].
    + unfold SocketHost.post_queue_skip, SocketHost.voteSkip.
      destruct (Playback.currentItem (playback st)) as [item|];
        [|apply same_membership_refl].
      destruct (negb (String.eqb (source (media item)) src)) eqn:Hsrc;
        [apply same_membership_refl|].
      destruct (negb (eventMode st)); cbn [andThen final].
      * eapply same_membership_trans; [|apply same_membership_emit].
        apply same_membership_count_vote.
      * destruct (has_tag "dj" user st); cbn [andThen final].
        -- eapply same_membership_trans;
             [apply same_membership_skip | apply same_membership_emit].
        -- rewrite status_to_user.
           destruct (connections st !! user); cbn [andThen final];
             [|apply same_membership_refl].
           eapply same_membership_trans; apply same_membership_emit.
    + unfold TicketRoutes.delete_queue.
      destruct (find_item del st) as [item|]; [|apply same_membership_emit].
      destruct (may_unqueue user item st); [|apply same_membership_emit].
      eapply same_membership_trans;
        [apply same_membership_unqueue | apply same_membership_emit].
    + unfold SocketRoutes.delete_queue.
      destruct (find_item del st) as [item|]; [|apply same_membership_refl].
      destruct (may_unqueue user item st); [|apply same_membership_emit].
      eapply same_membership_trans;
        [apply same_membership_unqueue | apply same_membership_emit].
    + unfold TicketHost.checkQueue. apply same_membership_checks.
  - intros st' (Hu & Hh & Hl & Htu & Hut & _ & Hc & _).
    unfold tokens_consistent, ids_bounded.
    rewrite Hu, Hh, Hl, Htu, Hut, Hc. by split.
Qed.

(** ** The skip command of an admin *)

(** X18. The [skip] command skips what is playing without looking at the
    votes or at the event mode: everyone is told who skipped what, the
    first pending item, if there is one, starts playing and the votes are
    then cleared, otherwise the zone goes idle and the votes stay; the
    membership is as before.  With nothing playing the command throws
    before anything is sent or changed. *)
Theorem admin_skip_command (st : State) :
  match Playback.currentItem (playback st) with
  | Some item =>
      ∃ st',
        SocketRoutes.command_skip st = Done st'
        ∧ Playback.currentItem (playback st') = head (Playback.queue (playback st))
        ∧ Playback.queue (playback st') = tail (Playback.queue (playback st))
        ∧ skips st' = (if Playback.queue (playback st) is [] then skips st else ∅)
        ∧ same_membership st st'
        ∧ log st'
          = (log st ++ broadcast (MStatus (AdminSkipped (title (media item)))) st)
            ++ skip_announcement st
  | None => SocketRoutes.command_skip st = Raise TypeError st
  end.
Proof.
  unfold SocketRoutes.command_skip.
  destruct (Playback.currentItem (playback st)) as [item|]; [|done].
  eexists. split; [reflexivity|].
  rewrite skip_playback, skip_skips, skip_log.
  refine (conj _ (conj _ (conj _ (conj _ _)))).
  - unfold Playback.skip. by destruct (Playback.queue (playback st)).
  - unfold Playback.skip. by destruct (Playback.queue (playback st)).
  - by destruct (Playback.queue (playback st)).
  - apply same_membership_skip.
  - reflexivity.
Qed.

(** ** The invariants hold in the example room *)

Lemma room_tokens_consistent : tokens_consistent room.
Proof.
  split.
  - intros u t. unfold room; cbn.
    rewrite !lookup_insert_Some, !lookup_singleton_Some. naive_solver.
  - intros t u. unfold room; cbn.
    rewrite lookup_insert_Some, lookup_singleton_Some.
    intros [[<- _]|[_ [<- _]]]; reflexivity.
Qed.

Lemma room_ids_bounded : ids_bounded room.
Proof.
  unfold ids_bounded, room; cbn. repeat split.
  - intros u Hu. apply elem_of_union in Hu as [Hu|Hu];
      apply elem_of_singleton in Hu; lia.
  - intros u [x Hx]. apply lookup_insert_Some in Hx as [[<- _]|[_ Hx]]; [lia|].
    apply lookup_singleton_Some in Hx as [<- _]. lia.
  - intros u [x Hx]. apply lookup_insert_Some in Hx as [[<- _]|[_ Hx]]; [lia|].
    apply lookup_singleton_Some in Hx as [<- _]. lia.
  - intros u [x Hx]. apply lookup_insert_Some in Hx as [[<- _]|[_ Hx]]; [lia|].
    apply lookup_singleton_Some in Hx as [<- _]. lia.
Qed.

Lemma room_echoes_bounded : echoes_bounded room_with_echo.
Proof.
  apply put_echo_bounded. intros pos e H.
  change (echoes room) with (∅ : gmap (list Z) UserEcho) in H.
  by rewrite lookup_empty in H.
Qed.

(** ** The properties of the routes at work in the example rooms *)

Lemma bearer_token_authenticates_witness :
  tokens_consistent room
  ∧ requireUserToken (Some "Bearer token-of-bob") (λ user st, Done (killUser user st)) room
    = Done (killUser 2 room)
  ∧ requireUserToken (Some "Basic Ym9iOmJvYg==") (λ user st, Done (killUser user st)) room
    = Done (emit [Respond 401 (Text_body InvalidUser)] room).
Proof.
  split; [exact room_tokens_consistent|].
  destruct (bearer_token_authenticates "token-of-bob" "Basic Ym9iOmJvYg=="
              (λ user st, Done (killUser user st)) room room_tokens_consistent)
    as (Hin & _ & Hout).
  split; [exact Hin | exact Hout].
Defined.

Lemma removed_user_cannot_authenticate_witness :
  userToToken room !! 1%nat = Some "token-of-alice"
  ∧ requireUserToken (Some "Bearer token-of-alice") (λ _ st, Done st) (killUser 1 room)
    = Done (emit [Respond 401 (Text_body InvalidUser)] (killUser 1 room)).
Proof.
  assert (Htoken : userToToken room !! 1%nat = Some "token-of-alice") by reflexivity.
  split; [exact Htoken|].
  exact (removed_user_cannot_authenticate 1 "token-of-alice" (λ _ st, Done st) room
           room_tokens_consistent Htoken).
Defined.

Lemma killUser_spares_the_others_witness :
  userToToken (killUser 1 room) !! 2%nat = Some "token-of-bob"
  ∧ tokenToUser (killUser 1 room) !! "token-of-bob" = Some 2%nat
  ∧ connections (killUser 1 room) !! 2%nat = Some 12%nat.
Proof.
  assert (Hne : 2%nat ≠ 1%nat) by lia.
  destruct (killUser_spares_the_others 1 2 room room_tokens_consistent Hne)
    as (Htoken & Huser & Hsocket & _).
  split; [exact Htoken|]. split; [exact Huser | exact Hsocket].
Defined.

Lemma invariants_survive_close_and_timeout_witness :
  tokens_consistent (on_close 11 1000 room) ∧ ids_bounded (on_close 11 1000 room).
Proof.
  destruct (invariants_survive_close_and_timeout 11 1000 0 room
              room_tokens_consistent room_ids_bounded) as (Ht & Hb & _).
  split; [exact Ht | exact Hb].
Defined.

Lemma invariants_survive_join_witness :
  truthy "token-of-carol" = true
  ∧ tokenToUser room_with_arrival !! "token-of-carol" = None
  ∧ tokens_consistent
      (final (SocketHost.on_join 13 carol_joins "token-of-carol" room_with_arrival))
  ∧ ids_bounded
      (final (SocketHost.on_join 13 carol_joins "token-of-carol" room_with_arrival)).
Proof.
  assert (Htruthy : truthy "token-of-carol" = true) by reflexivity.
  assert (Hfresh : tokenToUser room_with_arrival !! "token-of-carol" = None)
    by (vm_compute; reflexivity).
  split; [exact Htruthy|]. split; [exact Hfresh|].
  exact (invariants_survive_join 13 carol_joins "token-of-carol" room_with_arrival
           room_tokens_consistent room_ids_bounded Htruthy Hfresh).
Defined.

Lemma newcomer_is_brand_new_witness :
  listeners room_with_arrival !! 13%nat = Some (AwaitingJoin "10.0.0.1")
  ∧ SocketHost.resume carol_joins room_with_arrival = None
  ∧ SocketHost.authorised carol_joins room_with_arrival = true
  ∧ users (final (SocketHost.on_join 13 carol_joins "token-of-carol" room_with_arrival))
    = {[ 3%nat ]} ∪ users room_with_arrival
  ∧ heap (final (SocketHost.on_join 13 carol_joins "token-of-carol" room_with_arrival))
      !! 3%nat
    = Some (newcomer 3 "carol" None)
  ∧ has_tag "admin" 3
      (final (SocketHost.on_join 13 carol_joins "token-of-carol" room_with_arrival))
    = false.
Proof.
  assert (Hl : listeners room_with_arrival !! 13%nat = Some (AwaitingJoin "10.0.0.1"))
    by (vm_compute; reflexivity).
  assert (Hres : SocketHost.resume carol_joins room_with_arrival = None) by reflexivity.
  assert (Hauth : SocketHost.authorised carol_joins room_with_arrival = true)
    by reflexivity.
  split; [exact Hl|]. split; [exact Hres|]. split; [exact Hauth|].
  destruct (newcomer_is_brand_new 13 1 "10.0.0.1" "token-of-carol" "admin" carol_joins
              room_with_arrival room_ids_bounded Hl Hres Hauth)
    as (_ & _ & Husers & Hheap & Htag & _).
  split; [exact Husers|]. split; [exact Hheap | exact Htag].
Defined.

Lemma ticket_join_creates_user_witness :
  bans room_with_ticket !! "10.0.0.3" = None
  ∧ tickets room_with_ticket !! "ticket-of-carol"
    = Some {| ticket_name := "carol"; ticket_avatar := "cat" |}
  ∧ TicketHost.ws_zone_ticket 13 "10.0.0.3" "ticket-of-carol" "token-of-carol"
      room_with_ticket
    = Done (TicketRoutes.joined_state 13 "10.0.0.3"
              {| ticket_name := "carol"; ticket_avatar := "cat" |} "token-of-carol"
              room_with_ticket)
  ∧ users (TicketRoutes.joined_state 13 "10.0.0.3"
             {| ticket_name := "carol"; ticket_avatar := "cat" |} "token-of-carol"
             room_with_ticket)
    = {[ 3%nat ]} ∪ users room_with_ticket.
Proof.
  assert (Hban : bans room_with_ticket !! "10.0.0.3" = None) by reflexivity.
  assert (Hticket : tickets room_with_ticket !! "ticket-of-carol"
                    = Some {| ticket_name := "carol"; ticket_avatar := "cat" |})
    by (vm_compute; reflexivity).
  split; [exact Hban|]. split; [exact Hticket|].
  destruct (ticket_join_creates_user 13 "10.0.0.3" "ticket-of-carol" "token-of-carol"
              {| ticket_name := "carol"; ticket_avatar := "cat" |} room_with_ticket
              room_ids_bounded Hban Hticket)
    as (Hjoin & _ & _ & Husers & _).
  split; [exact Hjoin | exact Husers].
Defined.

Lemma invariants_survive_ticket_join_witness :
  truthy "token-of-carol" = true
  ∧ tokenToUser room_with_ticket !! "token-of-carol" = None
  ∧ tokens_consistent
      (final (TicketHost.ws_zone_ticket 13 "10.0.0.3" "ticket-of-carol" "token-of-carol"
                room_with_ticket))
  ∧ ids_bounded
      (final (TicketHost.ws_zone_ticket 13 "10.0.0.3" "ticket-of-carol" "token-of-carol"
                room_with_ticket)).
Proof.
  assert (Htruthy : truthy "token-of-carol" = true) by reflexivity.
  assert (Hfresh : tokenToUser room_with_ticket !! "token-of-carol" = None)
    by (vm_compute; reflexivity).
  split; [exact Htruthy|]. split; [exact Hfresh|].
  exact (invariants_survive_ticket_join 13 "10.0.0.3" "ticket-of-carol" "token-of-carol"
           room_with_ticket room_tokens_consistent room_ids_bounded Htruthy Hfresh).
Defined.

Lemma ticket_issue_and_use_witness :
  bans room !! "10.0.0.3" = None
  ∧ TicketHost.ws_zone_ticket 13 "10.0.0.3" "ticket-of-carol" "token-of-carol"
      (final (TicketHost.post_zone_join "10.0.0.3" "carol" "cat" "ticket-of-carol" room))
    = Done (TicketRoutes.joined_state 13 "10.0.0.3"
              {| ticket_name := "carol"; ticket_avatar := "cat" |} "token-of-carol"
              (final (TicketHost.post_zone_join "10.0.0.3" "carol" "cat"
                        "ticket-of-carol" room)))
  ∧ TicketHost.ws_zone_ticket 13 "10.0.0.3" "ticket-of-dave" "token-of-carol" room
    = Done (emit [Respond 404 Empty_body] room).
Proof.
  assert (Hban : bans room !! "10.0.0.3" = None) by reflexivity.
  split; [exact Hban|].
  destruct (ticket_issue_and_use 13 "10.0.0.3" "carol" "cat" "ticket-of-carol"
              "token-of-carol" "ticket-of-dave" room Hban)
    as (_ & Huse & Hunknown).
  split; [exact Huse | exact Hunknown].
Defined.


Lemma queue_limit_per_address_witness :
  eventMode full_room && has_tag "dj" 1 full_room = false
  ∧ (perUserQueueLimit (opts full_room)
     ≤ queued_by_ip (userToIp full_room !! 1%nat) full_room)%nat
  ∧ playback (final (SocketHost.tryQueueMedia 1 short_piece false full_room))
    = playback full_room.
Proof.
  assert (Hdj : eventMode full_room && has_tag "dj" 1 full_room = false) by reflexivity.
  assert (Hcount : queued_by_ip (userToIp full_room !! 1%nat) full_room = 3%nat)
    by (vm_compute; reflexivity).
  assert (Hfull : (perUserQueueLimit (opts full_room)
                   ≤ queued_by_ip (userToIp full_room !! 1%nat) full_room)%nat)
    by (rewrite Hcount; simpl; lia).
  split; [exact Hdj|]. split; [exact Hfull|].
  destruct (queue_limit_per_address 1 short_piece false full_room Hdj Hfull)
    as (_ & _ & Hsame).
  exact Hsame.
Defined.

Lemma accepted_media_is_queued_witness :
  Forall (λ queued, source (media queued) ≠ source short_piece)
         (Playback.queue (playback busy_room))
  ∧ ∃ st', TicketHost.tryQueueMedia 1 short_piece false busy_room = Done st'
           ∧ Playback.nextId (playback st') = 3%nat
           ∧ Playback.currentItem (playback st') = Some (song 0 "a" None 1)
           ∧ length (Playback.queue (playback st')) = 2%nat.
Proof.
  assert (Hmode : eventMode busy_room && negb (has_tag "dj" 1 busy_room) = false)
    by reflexivity.
  assert (Hnew : Forall (λ queued, source (media queued) ≠ source short_piece)
                        (Playback.queue (playback busy_room))).
  { constructor; [vm_compute; discriminate | constructor]. }
  assert (Hroom : negb (eventMode busy_room && has_tag "dj" 1 busy_room)
                  && Nat.leb (perUserQueueLimit (opts busy_room))
                             (queued_by_ip (userToIp busy_room !! 1%nat) busy_room)
                  = false) by (vm_compute; reflexivity).
  split; [exact Hnew|].
  destruct (accepted_media_is_queued 1 short_piece false busy_room Hmode Hnew Hroom)
    as (_ & st' & Hdone & Hid & Hcur & Hqueue & _).
  exists st'. split; [exact Hdone|]. split; [exact Hid|]. split; [exact Hcur|].
  rewrite Hqueue. reflexivity.
Defined.

Lemma queue_share_stays_bounded_witness :
  (queued_by_ip (Some "10.0.0.1")
     (final (TicketHost.tryQueueMedia 1 short_piece false full_room)) ≤ 3)%nat
  ∧ (queued_by_ip (Some "10.0.0.1")
       (final (SocketHost.tryQueueMedia 2 short_piece true busy_room)) ≤ 3)%nat.
Proof.
  assert (Hone : eventMode full_room && has_tag "dj" 1 full_room = false) by reflexivity.
  assert (Htwo : eventMode busy_room && has_tag "dj" 2 busy_room = false) by reflexivity.
  split.
  - exact (proj1 (queue_share_stays_bounded 1 short_piece false (Some "10.0.0.1")
                    full_room Hone)).
  - exact (proj2 (queue_share_stays_bounded 2 short_piece true (Some "10.0.0.1")
                    busy_room Htwo)).
Defined.

Lemma delete_queue_needs_authority_witness :
  find_item (Some 1%nat) busy_room = Some (song 1 "b" None 2)
  ∧ Playback.queue (playback (TicketRoutes.delete_queue 2 (Some 1%nat) busy_room)) = []
  ∧ TicketRoutes.delete_queue 1 (Some 1%nat) busy_room
    = emit [Respond 403 Empty_body] busy_room.
Proof.
  assert (Hfind : find_item (Some 1%nat) busy_room = Some (song 1 "b" None 2))
    by reflexivity.
  split; [exact Hfind|].
  pose proof (delete_queue_needs_authority 2 (Some 1%nat) (song 1 "b" None 2) busy_room
                Hfind) as (_ & _ & _ & Howner).
  pose proof (delete_queue_needs_authority 1 (Some 1%nat) (song 1 "b" None 2) busy_room
                Hfind) as (_ & _ & _ & Hother).
  assert (Hyes : may_unqueue 2 (song 1 "b" None 2) busy_room = true)
    by (vm_compute; reflexivity).
  assert (Hno : may_unqueue 1 (song 1 "b" None 2) busy_room = false)
    by (vm_compute; reflexivity).
  rewrite Hyes in Howner. rewrite Hno in Hother.
  split; [exact (proj1 Howner) | exact (proj1 Hother)].
Defined.

Lemma banger_is_short_witness :
  Forall (λ m, 480000 < duration m) [long_piece]
  ∧ libraryTagToBanger [long_piece] 0 = None
  ∧ libraryTagToBanger [long_piece; short_piece] 0 = Some short_piece.
Proof.
  assert (Hlong : Forall (λ m, 480000 < duration m) [long_piece]).
  { constructor; [simpl; lia | constructor]. }
  split; [exact Hlong|].
  split; [exact (proj2 (banger_is_short [long_piece] 0) Hlong) | reflexivity].
Defined.

Lemma echoes_stay_bounded_witness :
  [1; 2] ≠ [5; 5]
  ∧ echoes_bounded (TicketHost.post_echoes 1 "hi" [5; 5] room_with_echo)
  ∧ echoes (TicketHost.post_echoes 1 "hi" [5; 5] room_with_echo) !! [1; 2]
    = echoes room_with_echo !! [1; 2].
Proof.
  assert (Hne : [1; 2] ≠ [5; 5]) by discriminate.
  split; [exact Hne|].
  destruct (echoes_stay_bounded 1 "hi" [5; 5] [1; 2] room_with_echo
              room_echoes_bounded Hne) as (_ & Hinv & _ & Hsame).
  split; [exact Hinv | exact Hsame].
Defined.

Lemma queue_requests_keep_membership_witness :
  tokens_consistent (TicketRoutes.delete_queue 2 (Some 1%nat) busy_room)
  ∧ ids_bounded (final (TicketHost.post_queue 1 short_piece busy_room)).
Proof.
  destruct (queue_requests_keep_membership 2 short_piece false 0 "library:a"
              (Some 1%nat) all_failed busy_room) as [(_ & _ & _ & _ & Hdel & _) Hinv].
  destruct (queue_requests_keep_membership 1 short_piece false 0 "library:a"
              (Some 1%nat) all_failed busy_room) as [(Hqueue & _) _].
  split.
  - exact (proj1 (Hinv _ Hdel) room_tokens_consistent).
  - exact (proj2 (Hinv _ Hqueue) room_ids_bounded).
Defined.
